(** * The HTTP plugin's guest binding ([plugins/http/guest-js/index.ts])

    A shallow embedding of the binding's [fetch] and [setClientOptions]
    and of the protocol they speak with the native engine through
    [invoke].  The binding does no networking: what can be verified is
    which engine calls it makes, in which order, with which arguments,
    and which value its promise settles with. *)

From Stdlib Require Import ZArith List String Ascii Strings.Byte Bool Lia.
Import ListNotations.
Local Open Scope string_scope.
Local Open Scope list_scope.
Local Open Scope nat_scope.

(** ** JavaScript values the binding handles *)

(** A JavaScript [number]; the binding only passes resource ids and
    status codes through, it never computes with them. *)
Definition number := Z.

(** An [ArrayBuffer] is its byte sequence; [byteLength] its length. *)
Definition ArrayBuffer := list byte.

Definition byteLength (buffer : ArrayBuffer) : nat := List.length buffer.

(** [ToUint8]: how an element of a [number[]] lands in a [Uint8Array]. *)
Definition ToUint8 (n : number) : byte :=
  match Byte.of_N (Z.to_N (n mod 256)) with
  | Some b => b
  | None => x00
  end.

Definition number_of_byte (b : byte) : number := Z.of_N (Byte.to_N b).

(** [Array.from(new Uint8Array(buffer))] *)
Definition Array_from_Uint8Array (buffer : ArrayBuffer) : list number :=
  map number_of_byte buffer.

(** [new Uint8Array(body)] for a [number[]] *)
Definition new_Uint8Array (body : list number) : list byte :=
  map ToUint8 body.

(** [key.startsWith(p)] and [key.substring(start)]. *)
Definition startsWith (key p : string) : bool := String.prefix p key.

Definition substring_from (key : string) (start : nat) : string :=
  String.substring start (String.length key - start) key.

(** An [Error] object, as [new Error(message)] and the host's
    [TypeError]s and [RangeError]s are. *)
Record JsError := { name : string; message : string }.

Definition new_Error (msg : string) : JsError :=
  {| name := "Error"; message := msg |}.

(** ** Client options (lines 36-87) *)

Record ProxyConfig := {
  proxy_url : string;
  basicAuth : option (string * string);
  noProxy : option string
}.

Record Proxy := {
  all : option (string + ProxyConfig);
  http : option (string + ProxyConfig);
  https : option (string + ProxyConfig)
}.

Record ClientOptions := {
  maxRedirections : option number;
  connectTimeout : option number;
  proxy : option Proxy
}.

(** ** The caller's side: abort signal, request *)

(** The call runs single-threaded and is suspended at each [await]; the
    signal can only change while the call is suspended.  [fires_at] is
    the suspension during which the signal becomes aborted: [Some 0] is
    "already aborted when [fetch] is called", [Some k] "during the k-th
    [await]", [None] "never".  Once aborted a signal stays aborted. *)
Record AbortSignal := { fires_at : option nat }.

Definition signal_aborted (signal : AbortSignal) (now : nat) : bool :=
  match fires_at signal with
  | Some t => t <=? now
  | None => false
  end.

(** The host's [Request] as far as the binding reads it: [headers] is
    what [req.headers.entries()] iterates over, [arrayBuffer] what the
    promise of [req.arrayBuffer()] settles with. *)
Record Request := {
  method : string;
  url : string;
  headers : list (string * string);
  arrayBuffer : JsError + ArrayBuffer
}.

Inductive RequestInfo :=
| InputURL (href : string)
| InputString (s : string)
| InputRequest (r : Request).

Record RequestInit := {
  init_method : option string;
  init_headers : option (list (string * string));
  init_body : option ArrayBuffer;
  init_signal : option AbortSignal
}.

(** [init?.signal] *)
Definition signal_of (init : option RequestInit) : option AbortSignal :=
  match init with
  | Some i => init_signal i
  | None => None
  end.

(** ** The protocol with the engine *)

Record ClientConfig := {
  cfg_method : string;
  cfg_url : string;
  cfg_headers : list (string * string);
  cfg_data : option (list number);
  cfg_options : option ClientOptions
}.

(** One [invoke] with its argument. *)
Inductive Command :=
| SetClientOptions (options : ClientOptions)
| Fetch (clientConfig : ClientConfig)
| FetchCancel (rid : number)
| FetchSend (rid : number)
| FetchReadBody (rid : number).

Definition command_name (c : Command) : string :=
  match c with
  | SetClientOptions _ => "plugin:http|set_client_options"
  | Fetch _ => "plugin:http|fetch"
  | FetchCancel _ => "plugin:http|fetch_cancel"
  | FetchSend _ => "plugin:http|fetch_send"
  | FetchReadBody _ => "plugin:http|fetch_read_body"
  end.

Record FetchSendResponse := {
  status : number;
  statusText : string;
  resp_headers : list (string * string);
  resp_url : string;
  resp_rid : number
}.

(** [invoke<ArrayBuffer | number[]>] *)
Inductive BodyReply :=
| BodyArrayBuffer (body : ArrayBuffer)
| BodyArray (body : list number).

(** First argument of [new Response]. *)
Inductive BodyInit :=
| InitArrayBuffer (body : ArrayBuffer)
| InitUint8Array (body : list byte).

Record ResponseInit := { ri_status : number; ri_statusText : string }.

Definition ERROR_REQUEST_CANCELLED : string := "Request canceled".

Definition UNSAFE_HEADER_PREFIX : string := "http_unsafe_header_".

(** ** Pure parts of [fetch] *)

(** Lines 124-125. *)
Definition data_of (buffer : ArrayBuffer) : option (list number) :=
  if negb (byteLength buffer =? 0)%nat
  then Some (Array_from_Uint8Array buffer)
  else None.

(** The body of the loop of lines 129-139: one [push]. *)
Definition push_header (mappedHeaders : list (string * string))
    (entry : string * string) : list (string * string) :=
  let '(key, value) := entry in
  let key :=
    if startsWith key UNSAFE_HEADER_PREFIX
    then substring_from key (String.length UNSAFE_HEADER_PREFIX)
    else key in
  mappedHeaders ++ [(key, value)].

(** Lines 127-139. *)
Definition mappedHeaders_of (req : Request) : list (string * string) :=
  fold_left push_header (headers req) [].

(** Lines 194-198. *)
Definition body_init (body : BodyReply) : option BodyInit :=
  match body with
  | BodyArrayBuffer b =>
      if negb (byteLength b =? 0)%nat then Some (InitArrayBuffer b) else None
  | BodyArray a =>
      if (0 <? List.length a)%nat then Some (InitUint8Array (new_Uint8Array a))
      else None
  end.

(** ** The runtime the binding runs in *)

(** The host's classes and the IPC, none of which this file defines.
    [rejection] is what a promise of [invoke] rejects with;
    [Response_url] and [Response_headers] are the getters a [Response]
    inherits from its prototype. *)
Class Runtime := {
  rejection : Type;
  Headers : Type;
  Response : Type;
  new_Request : RequestInfo -> option RequestInit -> JsError + Request;
  new_Headers : list (string * string) -> JsError + Headers;
  new_Response : option BodyInit -> ResponseInit -> JsError + Response;
  Response_url : Response -> string;
  Response_headers : Response -> Headers
}.

(** What a call can throw, by where the value was made: [Raised] by a
    [throw] of the binding's own, [HostThrown] by a host constructor or
    body read, [Rejected] by the engine through [invoke]. *)
Inductive Thrown `{Runtime} :=
| Raised (e : JsError)
| HostThrown (e : JsError)
| Rejected (payload : rejection).

Inductive Outcome `{Runtime} (A : Type) :=
| Return (a : A)
| Throw (t : Thrown).
Arguments Return {_ A} a.
Arguments Throw {_ A} t.

(** The engine answers each call; an answer may depend on every call
    made until the answer arrives (a cancel among them, say). *)
Record Engine `{Runtime} := {
  engine_set_client_options :
    ClientOptions -> list Command -> rejection + unit;
  engine_fetch : ClientConfig -> list Command -> rejection + number;
  engine_fetch_cancel : number -> list Command -> rejection + unit;
  engine_fetch_send :
    number -> list Command -> rejection + FetchSendResponse;
  engine_fetch_read_body : number -> list Command -> rejection + BodyReply
}.

(** A [Response] with the own properties [Object.defineProperty] gave
    it; an own property shadows the prototype's getter. *)
Record ResponseObject `{Runtime} := {
  target : Response;
  own_url : option string;
  own_headers : option Headers
}.

Definition get_url `{Runtime} (res : ResponseObject) : string :=
  match own_url res with
  | Some v => v
  | None => Response_url (target res)
  end.

Definition get_headers `{Runtime} (res : ResponseObject) : Headers :=
  match own_headers res with
  | Some v => v
  | None => Response_headers (target res)
  end.

Definition defineProperty_url `{Runtime} (res : ResponseObject)
    (value : string) : ResponseObject :=
  {| target := target res; own_url := Some value;
     own_headers := own_headers res |}.

Definition defineProperty_headers `{Runtime} (res : ResponseObject)
    (value : Headers) : ResponseObject :=
  {| target := target res; own_url := own_url res;
     own_headers := Some value |}.

(** ** State and effects of one call *)

(** [now] counts the suspensions so far, [calls] is every [invoke] made,
    oldest first, [listeners] the ['abort'] listeners attached, each
    with the engine call its closure makes. *)
Record State := {
  now : nat;
  calls : list Command;
  listeners : list (AbortSignal * Command)
}.

Definition initial : State := {| now := 0; calls := []; listeners := [] |}.

Module Async.
Section Monad.
Context `{Runtime}.

Definition M (A : Type) : Type := State -> Outcome A * State.

(** A pending promise: what it settles with, given the calls made by
    then. *)
Definition Promise (A : Type) : Type := list Command -> Outcome A.

Definition ret {A} (a : A) : M A := fun s => (Return a, s).

Definition throw {A} (t : Thrown) : M A := fun s => (Throw t, s).

Definition bind {A B} (m : M A) (k : A -> M B) : M B :=
  fun s =>
    match m s with
    | (Return a, s') => k a s'
    | (Throw t, s') => (Throw t, s')
    end.

(** A host constructor, which returns or throws. *)
Definition host {A} (r : JsError + A) : M A :=
  match r with
  | inl e => throw (HostThrown e)
  | inr a => ret a
  end.

Definition host_promise {A} (r : JsError + A) : Promise A :=
  fun _ =>
    match r with
    | inl e => Throw (HostThrown e)
    | inr a => Return a
    end.

(** [signal?.aborted] *)
Definition aborted (signal : option AbortSignal) : M bool :=
  fun s =>
    (Return match signal with
            | Some sg => signal_aborted sg (now s)
            | None => false
            end, s).

(** [invoke(cmd, args)]: the call goes out, the promise is pending. *)
Definition invoke {A} (cmd : Command)
    (reply : list Command -> rejection + A) : M (Promise A) :=
  fun s =>
    (Return (fun history =>
               match reply history with
               | inl p => Throw (Rejected p)
               | inr a => Return a
               end),
     {| now := now s; calls := calls s ++ [cmd];
        listeners := listeners s |}).

(** The calls of the listeners whose signal fires at time [t]. *)
Definition dispatch (t : nat) (ls : list (AbortSignal * Command))
    : list Command :=
  flat_map (fun '(sg, cmd) =>
              match fires_at sg with
              | Some k => if k =? t then [cmd] else []
              | None => []
              end) ls.

(** One suspension: time passes, a signal may fire, and its listeners
    then run before the call resumes. *)
Definition suspend (s : State) : State :=
  {| now := S (now s);
     calls := calls s ++ dispatch (S (now s)) (listeners s);
     listeners := listeners s |}.

(** [await p] *)
Definition await {A} (p : Promise A) : M A :=
  fun s => let s' := suspend s in (p (calls s'), s').

(** [signal?.addEventListener('abort', () => void abort())], where
    [abort] makes the call [cmd]. *)
Definition addEventListener (signal : option AbortSignal)
    (cmd : Command) : M unit :=
  fun s =>
    (Return tt,
     match signal with
     | Some sg =>
         {| now := now s; calls := calls s;
            listeners := listeners s ++ [(sg, cmd)] |}
     | None => s
     end).

End Monad.
End Async.
Import Async.

Declare Scope async_scope.
Delimit Scope async_scope with async.
Notation "x <- m ;; k" := (bind m (fun x => k))
  (at level 100, m at next level, right associativity) : async_scope.
Notation "m ;;; k" := (bind m (fun _ => k))
  (at level 100, right associativity) : async_scope.

Section Binding.
Context `{Runtime}.
Variable engine : Engine.
Local Open Scope async_scope.

(** Lines 89-91. *)
Definition setClientOptions (options : ClientOptions) : M unit :=
  p <- invoke (SetClientOptions options)
         (engine_set_client_options engine options) ;;
  await p.

(** Lines 193-216. *)
Definition assemble (r : FetchSendResponse) (body : BodyReply)
    : M ResponseObject :=
  res <- host (new_Response (body_init body)
                 {| ri_status := status r;
                    ri_statusText := statusText r |}) ;;
  let res := {| target := res; own_url := None; own_headers := None |} in
  let res := defineProperty_url res (resp_url r) in
  value <- host (new_Headers (resp_headers r)) ;;
  ret (defineProperty_headers res value).

(** Lines 111-217. *)
Definition fetch (input : RequestInfo) (init : option RequestInit)
    (options : option ClientOptions) : M ResponseObject :=
  let signal := signal_of init in
  a <- aborted signal ;;
  if a : bool then throw (Raised (new_Error ERROR_REQUEST_CANCELLED)) else
  req <- host (new_Request input init) ;;
  buffer <- await (host_promise (arrayBuffer req)) ;;
  let data := data_of buffer in
  let mappedHeaders := mappedHeaders_of req in
  a <- aborted signal ;;
  if a : bool then throw (Raised (new_Error ERROR_REQUEST_CANCELLED)) else
  let clientConfig :=
    {| cfg_method := method req; cfg_url := url req;
       cfg_headers := mappedHeaders; cfg_data := data;
       cfg_options := options |} in
  p <- invoke (Fetch clientConfig) (engine_fetch engine clientConfig) ;;
  rid <- await p ;;
  let abort := invoke (FetchCancel rid) (engine_fetch_cancel engine rid) in
  a <- aborted signal ;;
  if a : bool then
    (abort ;;; throw (Raised (new_Error ERROR_REQUEST_CANCELLED)))
  else
  addEventListener signal (FetchCancel rid) ;;;
  p <- invoke (FetchSend rid) (engine_fetch_send engine rid) ;;
  r <- await p ;;
  p <- invoke (FetchReadBody (resp_rid r))
         (engine_fetch_read_body engine (resp_rid r)) ;;
  body <- await p ;;
  assemble r body.

(** A call from its start: the value its promise settles with and the
    state it leaves. *)
Definition run {A} (m : M A) : Outcome A * State := m initial.

End Binding.

(** ** A runtime and engines to run the binding on

    None of this is in the binding's source: a runtime whose [Request]
    follows the Fetch standard as far as the samples go (method and
    header names normalised, headers iterated sorted with repeated
    names joined, no body on [GET] or [HEAD]) and a few scripted
    engines, to evaluate the definitions above on concrete calls. *)

Module Sample.

Record SimpleResponse := {
  sr_body : option BodyInit;
  sr_status : number;
  sr_statusText : string
}.

(** Letters of a header name in lower case, of a method in upper
    case. *)
Definition lower_ascii (c : ascii) : ascii :=
  let n := nat_of_ascii c in
  if (65 <=? n) && (n <=? 90) then ascii_of_nat (n + 32) else c.

Definition upper_ascii (c : ascii) : ascii :=
  let n := nat_of_ascii c in
  if (97 <=? n) && (n <=? 122) then ascii_of_nat (n - 32) else c.

Fixpoint map_string (f : ascii -> ascii) (s : string) : string :=
  match s with
  | EmptyString => EmptyString
  | String c s' => String (f c) (map_string f s')
  end.

(** A method that is one of the standard six, in any case, is put in
    upper case; any other is left as it is. *)
Definition normalize_method (m : string) : string :=
  let u := map_string upper_ascii m in
  if existsb (String.eqb u) ["DELETE"; "GET"; "HEAD"; "OPTIONS"; "POST"; "PUT"]
  then u else m.

(** A header list as a [Headers] object iterates over it: names in
    lower case and in ascending order, the values of one name joined
    by a comma and a space in the order they were given. *)
Fixpoint insert_header (key value : string) (l : list (string * string))
    : list (string * string) :=
  match l with
  | [] => [(key, value)]
  | (k, v) :: rest =>
      match String.compare key k with
      | Lt => (key, value) :: l
      | Eq => (k, (v ++ ", " ++ value)%string) :: rest
      | Gt => (k, v) :: insert_header key value rest
      end
  end.

Definition header_entries (l : list (string * string))
    : list (string * string) :=
  fold_left (fun acc e => insert_header (map_string lower_ascii (fst e))
                            (snd e) acc) l [].

(** [new Request(input, init)]: the members of [init] override those of
    [input]; an empty url does not parse, and a [GET] or [HEAD] request
    may not be given a body. *)
Definition simple_new_Request (input : RequestInfo)
    (init : option RequestInit) : JsError + Request :=
  let base :=
    match input with
    | InputRequest r => r
    | InputURL u | InputString u =>
        {| method := "GET"; url := u; headers := [];
           arrayBuffer := inr [] |}
    end in
  let m := match init with
           | Some {| init_method := Some m |} => normalize_method m
           | _ => method base
           end in
  let h := match init with
           | Some {| init_headers := Some h |} => header_entries h
           | _ => headers base
           end in
  let b := match init with
           | Some {| init_body := Some b |} => Some b
           | _ => None
           end in
  if (String.length (url base) =? 0)%nat
  then inl {| name := "TypeError"; message := "Invalid URL" |}
  else
    match b with
    | Some body =>
        if String.eqb m "GET" || String.eqb m "HEAD"
        then inl {| name := "TypeError";
                    message := "Request with GET/HEAD method cannot have body" |}
        else inr {| method := m; url := url base; headers := h;
                    arrayBuffer := inr body |}
    | None =>
        inr {| method := m; url := url base; headers := h;
               arrayBuffer := arrayBuffer base |}
    end.

#[export] Instance simple : Runtime := {|
  rejection := string;
  Headers := list (string * string);
  Response := SimpleResponse;
  new_Request := simple_new_Request;
  new_Headers := fun l => inr l;
  new_Response := fun b ri =>
    if ((200 <=? ri_status ri) && (ri_status ri <=? 599))%Z
    then inr {| sr_body := b; sr_status := ri_status ri;
                sr_statusText := ri_statusText ri |}
    else inl {| name := "RangeError"; message := "status" |};
  Response_url := fun _ => "";
  Response_headers := fun _ => []
|}.

Definition json_a1 : list number := [123; 34; 97; 34; 58; 49; 125]%Z.

Definition ok_engine : Engine := {|
  engine_set_client_options := fun _ _ => inr tt;
  engine_fetch := fun _ _ => inr 1%Z;
  engine_fetch_cancel := fun _ _ => inr tt;
  engine_fetch_send := fun _ _ =>
    inr {| status := 200%Z; statusText := "OK";
           resp_headers := [("content-type", "application/json");
                            ("set-cookie", "a=1")];
           resp_url := "http://h/data.json"; resp_rid := 2%Z |};
  engine_fetch_read_body := fun _ _ => inr (BodyArray json_a1)
|}.

Definition denying_engine : Engine := {|
  engine_set_client_options := fun _ _ => inr tt;
  engine_fetch := fun _ _ => inl "url not allowed on the configured scope";
  engine_fetch_cancel := fun _ _ => inr tt;
  engine_fetch_send := fun _ _ => inl "unknown resource";
  engine_fetch_read_body := fun _ _ => inl "unknown resource"
|}.

(** An engine that rejects the status call once it has seen a cancel. *)
Definition cancelling_engine : Engine := {|
  engine_set_client_options := fun _ _ => inr tt;
  engine_fetch := fun _ _ => inr 1%Z;
  engine_fetch_cancel := fun _ _ => inr tt;
  engine_fetch_send := fun rid history =>
    if existsb (fun c => match c with
                         | FetchCancel id => (id =? rid)%Z
                         | _ => false
                         end) history
    then inl "Request canceled"
    else inr {| status := 200%Z; statusText := "OK"; resp_headers := [];
                resp_url := "http://h/data.json"; resp_rid := 2%Z |};
  engine_fetch_read_body := fun _ _ => inr (BodyArray json_a1)
|}.

Definition empty_body_engine (body : BodyReply) : Engine := {|
  engine_set_client_options := fun _ _ => inr tt;
  engine_fetch := fun _ _ => inr 1%Z;
  engine_fetch_cancel := fun _ _ => inr tt;
  engine_fetch_send := fun _ _ =>
    inr {| status := 200%Z; statusText := "OK"; resp_headers := [];
           resp_url := "http://h/empty"; resp_rid := 2%Z |};
  engine_fetch_read_body := fun _ _ => inr body
|}.

Definition input : RequestInfo := InputString "http://h/data.json".

Definition init_firing (t : nat) : RequestInit :=
  {| init_method := Some "POST";
     init_headers := Some [("x-id", "7");
                           ("http_unsafe_header_x-id", "8");
                           ("accept", "*/*")];
     init_body := Some [x01; x02; xff];
     init_signal := Some {| fires_at := Some t |} |}.

Definition cfg : ClientConfig :=
  {| cfg_method := "POST"; cfg_url := "http://h/data.json";
     cfg_headers := [("accept", "*/*"); ("x-id", "8"); ("x-id", "7")];
     cfg_data := Some [1; 2; 255]%Z; cfg_options := None |}.

Definition req : Request :=
  {| method := "POST"; url := "http://h/data.json";
     headers := [("accept", "*/*"); ("http_unsafe_header_x-id", "8");
                 ("x-id", "7")];
     arrayBuffer := inr [x01; x02; xff] |}.

(** A bodiless [POST] whose headers the caller gives out of order and
    with a name twice. *)
Definition init_unordered : RequestInit :=
  {| init_method := Some "POST";
     init_headers := Some [("x-b", "1"); ("x-a", "2"); ("x-b", "3")];
     init_body := None;
     init_signal := None |}.

Definition json_response : ResponseObject :=
  {| target := {| sr_body := Some (InitUint8Array (new_Uint8Array json_a1));
                  sr_status := 200%Z; sr_statusText := "OK" |};
     own_url := Some "http://h/data.json";
     own_headers := Some [("content-type", "application/json");
                          ("set-cookie", "a=1")] |}.

Definition empty_response : ResponseObject :=
  {| target := {| sr_body := None; sr_status := 200%Z;
                  sr_statusText := "OK" |};
     own_url := Some "http://h/empty";
     own_headers := Some [] |}.

(** An engine that issues the request and then rejects the status call. *)
Definition status_failing_engine : Engine := {|
  engine_set_client_options := fun _ _ => inl "invalid proxy url";
  engine_fetch := fun _ _ => inr 1%Z;
  engine_fetch_cancel := fun _ _ => inr tt;
  engine_fetch_send := fun _ _ => inl "connection refused";
  engine_fetch_read_body := fun _ _ => inl "unknown resource"
|}.

(** An engine whose body call fails after a good status reply. *)
Definition body_failing_engine : Engine := {|
  engine_set_client_options := fun _ _ => inr tt;
  engine_fetch := fun _ _ => inr 1%Z;
  engine_fetch_cancel := fun _ _ => inr tt;
  engine_fetch_send := fun _ _ =>
    inr {| status := 200%Z; statusText := "OK"; resp_headers := [];
           resp_url := "http://h/data.json"; resp_rid := 2%Z |};
  engine_fetch_read_body := fun _ _ => inl "connection reset"
|}.

(** An engine that reports a status no [Response] can be built with. *)
Definition invalid_status_engine : Engine := {|
  engine_set_client_options := fun _ _ => inr tt;
  engine_fetch := fun _ _ => inr 1%Z;
  engine_fetch_cancel := fun _ _ => inr tt;
  engine_fetch_send := fun _ _ =>
    inr {| status := 99%Z; statusText := ""; resp_headers := [];
           resp_url := "http://h/data.json"; resp_rid := 2%Z |};
  engine_fetch_read_body := fun _ _ => inr (BodyArray json_a1)
|}.

(** The engine [ok_engine] with another answer to every cancel call. *)
Definition cancel_rejecting_engine : Engine := {|
  engine_set_client_options := engine_set_client_options ok_engine;
  engine_fetch := engine_fetch ok_engine;
  engine_fetch_cancel := fun _ _ => inl "unknown resource";
  engine_fetch_send := engine_fetch_send ok_engine;
  engine_fetch_read_body := engine_fetch_read_body ok_engine
|}.

Definition init_plain : RequestInit :=
  {| init_method := Some "POST";
     init_headers := Some [("accept", "*/*")];
     init_body := Some [x01; x02; xff];
     init_signal := None |}.

Definition plain_cfg : ClientConfig :=
  {| cfg_method := "POST"; cfg_url := "http://h/data.json";
     cfg_headers := [("accept", "*/*")];
     cfg_data := Some [1; 2; 255]%Z; cfg_options := None |}.

Definition plain_req : Request :=
  {| method := "POST"; url := "http://h/data.json";
     headers := [("accept", "*/*")];
     arrayBuffer := inr [x01; x02; xff] |}.

Definition status_reply : FetchSendResponse :=
  {| status := 200%Z; statusText := "OK";
     resp_headers := [("content-type", "application/json");
                      ("set-cookie", "a=1")];
     resp_url := "http://h/data.json"; resp_rid := 2%Z |}.

Definition sample_options : ClientOptions :=
  {| maxRedirections := Some 0%Z; connectTimeout := Some 3000%Z;
     proxy := Some {| all := Some (inl "http://proxy:8080");
                      http := None; https := None |} |}.

End Sample.

(** ** Observations on a call *)

Section Observations.
Context `{Runtime}.

(** [signal?.aborted] as it would read after [t] suspensions. *)
Definition aborted_at (init : option RequestInit) (t : nat) : bool :=
  match signal_of init with
  | Some sg => signal_aborted sg t
  | None => false
  end.

(** The request as constructed and its body as read (lines 122-123),
    when neither fails. *)
Definition captured (input : RequestInfo) (init : option RequestInit)
    : option (Request * ArrayBuffer) :=
  match new_Request input init with
  | inr req =>
      match arrayBuffer req with
      | inr buffer => Some (req, buffer)
      | inl _ => None
      end
  | inl _ => None
  end.

(** The argument of the issue call (lines 147-153). *)
Definition clientConfig_of (req : Request) (buffer : ArrayBuffer)
    (options : option ClientOptions) : ClientConfig :=
  {| cfg_method := method req; cfg_url := url req;
     cfg_headers := mappedHeaders_of req; cfg_data := data_of buffer;
     cfg_options := options |}.

(** The listener line 166 attaches for the handle [rid], and the calls
    it makes when the signal fires during suspension [t]. *)
Definition listener_of (init : option RequestInit) (rid : number)
    : list (AbortSignal * Command) :=
  match signal_of init with
  | Some sg => [(sg, FetchCancel rid)]
  | None => []
  end.

Definition fired (init : option RequestInit) (rid : number) (t : nat)
    : list Command :=
  dispatch t (listener_of init rid).

Definition cancelled : Thrown :=
  Raised (new_Error ERROR_REQUEST_CANCELLED).

Definition at_time (t : nat) (cs : list Command)
    (ls : list (AbortSignal * Command)) : State :=
  {| now := t; calls := cs; listeners := ls |}.

(** The ways through [fetch], one per exit. *)
Inductive fetch_path (engine : Engine) (input : RequestInfo)
    (init : option RequestInit) (options : option ClientOptions)
    : Outcome ResponseObject * State -> Prop :=
| path_entry_abort :
    aborted_at init 0 = true ->
    fetch_path engine input init options (Throw cancelled, initial)
| path_request_throws e :
    aborted_at init 0 = false ->
    new_Request input init = inl e ->
    fetch_path engine input init options (Throw (HostThrown e), initial)
| path_body_read_fails req e :
    aborted_at init 0 = false ->
    new_Request input init = inr req ->
    arrayBuffer req = inl e ->
    fetch_path engine input init options
      (Throw (HostThrown e), at_time 1 [] [])
| path_abort_before_issue req buffer :
    aborted_at init 0 = false ->
    captured input init = Some (req, buffer) ->
    aborted_at init 1 = true ->
    fetch_path engine input init options (Throw cancelled, at_time 1 [] [])
| path_issue_rejected req buffer p :
    let cfg := clientConfig_of req buffer options in
    aborted_at init 1 = false ->
    captured input init = Some (req, buffer) ->
    engine_fetch engine cfg [Fetch cfg] = inl p ->
    fetch_path engine input init options
      (Throw (Rejected p), at_time 2 [Fetch cfg] [])
| path_abort_after_issue req buffer rid :
    let cfg := clientConfig_of req buffer options in
    aborted_at init 1 = false ->
    captured input init = Some (req, buffer) ->
    engine_fetch engine cfg [Fetch cfg] = inr rid ->
    aborted_at init 2 = true ->
    fetch_path engine input init options
      (Throw cancelled, at_time 2 [Fetch cfg; FetchCancel rid] [])
| path_send_rejected req buffer rid p :
    let cfg := clientConfig_of req buffer options in
    let h3 := [Fetch cfg; FetchSend rid] ++ fired init rid 3 in
    aborted_at init 2 = false ->
    captured input init = Some (req, buffer) ->
    engine_fetch engine cfg [Fetch cfg] = inr rid ->
    engine_fetch_send engine rid h3 = inl p ->
    fetch_path engine input init options
      (Throw (Rejected p), at_time 3 h3 (listener_of init rid))
| path_read_body_rejected req buffer rid r p :
    let cfg := clientConfig_of req buffer options in
    let h3 := [Fetch cfg; FetchSend rid] ++ fired init rid 3 in
    let h4 := (h3 ++ [FetchReadBody (resp_rid r)]) ++ fired init rid 4 in
    aborted_at init 2 = false ->
    captured input init = Some (req, buffer) ->
    engine_fetch engine cfg [Fetch cfg] = inr rid ->
    engine_fetch_send engine rid h3 = inr r ->
    engine_fetch_read_body engine (resp_rid r) h4 = inl p ->
    fetch_path engine input init options
      (Throw (Rejected p), at_time 4 h4 (listener_of init rid))
| path_assemble req buffer rid r body :
    let cfg := clientConfig_of req buffer options in
    let h3 := [Fetch cfg; FetchSend rid] ++ fired init rid 3 in
    let h4 := (h3 ++ [FetchReadBody (resp_rid r)]) ++ fired init rid 4 in
    aborted_at init 2 = false ->
    captured input init = Some (req, buffer) ->
    engine_fetch engine cfg [Fetch cfg] = inr rid ->
    engine_fetch_send engine rid h3 = inr r ->
    engine_fetch_read_body engine (resp_rid r) h4 = inr body ->
    fetch_path engine input init options
      (assemble r body (at_time 4 h4 (listener_of init rid))).

End Observations.

(** ** Telling calls apart, and time after the call *)

(** Whether a call is one the [abort] closure of line 156 makes. *)
Definition is_cancel (c : Command) : bool :=
  match c with
  | FetchCancel _ => true
  | _ => false
  end.

(** [n] more suspensions of the event loop, from state [s] on: the
    listeners of line 166 are never removed, so they still run when
    their signal fires. *)
Definition elapse (n : nat) (s : State) : State := Nat.iter n suspend s.

(** ** Strings, bytes and the header loop *)

Lemma startsWith_split (p key : string) :
  startsWith key p = true ->
  key = (p ++ substring_from key (String.length p))%string.
Proof.
  unfold startsWith, substring_from.
  revert key; induction p as [|a p IH]; intros key Hp.
  - cbn. rewrite Nat.sub_0_r. clear Hp.
    induction key as [|c key IHk]; cbn; [reflexivity|].
    now rewrite <- IHk.
  - destruct key as [|c key]; cbn in Hp; [discriminate|].
    destruct (ascii_dec a c) as [->|]; [|discriminate].
    cbn. f_equal. now apply IH.
Qed.

Lemma ToUint8_number_of_byte (b : byte) : ToUint8 (number_of_byte b) = b.
Proof. destruct b; vm_compute; reflexivity. Qed.

Lemma new_Uint8Array_Array_from (buffer : ArrayBuffer) :
  new_Uint8Array (Array_from_Uint8Array buffer) = buffer.
Proof.
  unfold new_Uint8Array, Array_from_Uint8Array.
  induction buffer as [|b buffer IH]; cbn; [reflexivity|].
  now rewrite ToUint8_number_of_byte, IH.
Qed.

Lemma push_header_app (acc : list (string * string)) (entry : string * string) :
  push_header acc entry = acc ++ push_header [] entry.
Proof. destruct entry; reflexivity. Qed.

Lemma push_header_single (entry : string * string) :
  exists key', push_header [] entry = [(key', snd entry)] /\
    if startsWith (fst entry) UNSAFE_HEADER_PREFIX
    then fst entry = (UNSAFE_HEADER_PREFIX ++ key')%string
    else key' = fst entry.
Proof.
  destruct entry as [key value]. unfold push_header. cbn [fst snd app].
  destruct (startsWith key UNSAFE_HEADER_PREFIX) eqn:E.
  - eexists; split; [reflexivity|]. now apply startsWith_split.
  - eexists; split; reflexivity.
Qed.

Lemma fold_push_header (l acc : list (string * string)) :
  fold_left push_header l acc = acc ++ flat_map (push_header []) l.
Proof.
  revert acc; induction l as [|e l IH]; intro acc; cbn.
  - now rewrite app_nil_r.
  - now rewrite IH, (push_header_app acc e), <- app_assoc.
Qed.

Lemma mappedHeaders_flat_map (req : Request) :
  mappedHeaders_of req = flat_map (push_header []) (headers req).
Proof. unfold mappedHeaders_of. now rewrite fold_push_header. Qed.

Lemma pushed_nth (l : list (string * string)) :
  forall i entry, nth_error l i = Some entry ->
    exists sent,
      nth_error (flat_map (push_header []) l) i = Some sent /\
      push_header [] entry = [sent].
Proof.
  induction l as [|e l IH]; intros [|i] entry Hi; cbn in Hi; try discriminate.
  - injection Hi as ->.
    destruct (push_header_single entry) as [k [Hk _]].
    cbn [flat_map]. rewrite Hk. now eexists.
  - destruct (push_header_single e) as [k [Hk _]].
    cbn [flat_map]. rewrite Hk. cbn. now apply IH.
Qed.

Lemma pushed_length (l : list (string * string)) :
  List.length (flat_map (push_header []) l) = List.length l.
Proof.
  induction l as [|e l IH]; cbn; [reflexivity|].
  destruct (push_header_single e) as [k [Hk _]].
  rewrite Hk. cbn. now rewrite IH.
Qed.

Lemma pushed_values (l : list (string * string)) :
  map snd (flat_map (push_header []) l) = map snd l.
Proof.
  induction l as [|e l IH]; cbn; [reflexivity|].
  destruct (push_header_single e) as [k [Hk _]].
  rewrite Hk. cbn. now rewrite IH.
Qed.

(** ** Every call follows one of the paths *)

Section Paths.
Context `{Runtime}.

Lemma aborted_at_mono init t t' :
  t <= t' -> aborted_at init t = true -> aborted_at init t' = true.
Proof.
  unfold aborted_at, signal_aborted.
  destruct (signal_of init) as [sg|]; [|discriminate].
  destruct (fires_at sg) as [k|]; [|discriminate].
  intros Hle Hk. apply Nat.leb_le in Hk. apply Nat.leb_le. lia.
Qed.

Lemma fetch_path_total engine input init options :
  fetch_path engine input init options
    (run (fetch engine input init options)).
Proof.
  unfold run, fetch, bind, aborted, initial; cbn.
  fold (aborted_at init 0).
  destruct (aborted_at init 0) eqn:A0; [now constructor|].
  unfold host at 1.
  destruct (new_Request input init) as [e|req] eqn:Hreq;
    [now apply path_request_throws|].
  cbn. unfold host_promise.
  destruct (arrayBuffer req) as [e|buffer] eqn:Hbuf;
    [now eapply path_body_read_fails; eauto|].
  assert (Hcap : captured input init = Some (req, buffer))
    by (unfold captured; now rewrite Hreq, Hbuf).
  fold (aborted_at init 1).
  destruct (aborted_at init 1) eqn:A1;
    [now eapply path_abort_before_issue; eauto|].
  cbn. fold (clientConfig_of req buffer options).
  set (cfg := clientConfig_of req buffer options).
  destruct (engine_fetch engine cfg [Fetch cfg]) as [p|rid] eqn:Hissue;
    [now eapply path_issue_rejected; eauto|].
  fold (aborted_at init 2).
  destruct (aborted_at init 2) eqn:A2.
  { cbn. now eapply path_abort_after_issue; eauto. }
  destruct init as [[m h b [sg|]]|]; cbn.
  all: match goal with
       | |- context [engine_fetch_send ?e ?i ?h] =>
           destruct (engine_fetch_send e i h) as [p|r] eqn:Hsend
       end;
       [exact (path_send_rejected _ _ _ _ req buffer rid p
                 A2 Hcap Hissue Hsend)|].
  all: match goal with
       | |- context [engine_fetch_read_body ?e ?i ?h] =>
           destruct (engine_fetch_read_body e i h) as [p|body] eqn:Hbody
       end;
       [exact (path_read_body_rejected _ _ _ _ req buffer rid r p
                 A2 Hcap Hissue Hsend Hbody)|].
  all: exact (path_assemble _ _ _ _ req buffer rid r body
                A2 Hcap Hissue Hsend Hbody).
Qed.

(** [assemble] makes no engine call and either returns the response
    with both properties overridden or throws what the host threw. *)
Lemma assemble_cases r body s :
  snd (assemble r body s) = s /\
  ((exists e, fst (assemble r body s) = Throw (HostThrown e)) \/
   (exists t h,
      new_Response (body_init body)
        {| ri_status := status r; ri_statusText := statusText r |} = inr t /\
      new_Headers (resp_headers r) = inr h /\
      fst (assemble r body s) =
        Return {| target := t; own_url := Some (resp_url r);
                  own_headers := Some h |})).
Proof.
  unfold assemble, bind, host.
  destruct (new_Response _ _) as [e|t]; cbn.
  - split; [reflexivity|left; now exists e].
  - destruct (new_Headers _) as [e|h]; cbn.
    + split; [reflexivity|left; now exists e].
    + split; [reflexivity|right; now exists t, h].
Qed.

End Paths.

(** ** Proof steps shared by the properties of [fetch] *)

Ltac by_path engine input init options :=
  let P := fresh "P" in
  pose proof (fetch_path_total engine input init options) as P;
  remember (run (fetch engine input init options)) as result eqn:Hresult in *;
  clear Hresult; destruct P.

Ltac signal_clash :=
  match goal with
  | T : aborted_at ?i ?a = true, F : aborted_at ?i ?b = false |- _ =>
      rewrite (aborted_at_mono i a b ltac:(lia) T) in F; discriminate F
  end.

Ltac capture_clash :=
  match goal with
  | C : captured ?i ?n = Some _, R : new_Request ?i ?n = inl _ |- _ =>
      unfold captured in C; rewrite R in C; discriminate C
  | C : captured ?i ?n = Some _, R : new_Request ?i ?n = inr ?q,
    B : arrayBuffer ?q = inl _ |- _ =>
      unfold captured in C; rewrite R, B in C; discriminate C
  | C : captured ?i ?n <> None, R : new_Request ?i ?n = inl _ |- _ =>
      unfold captured in C; rewrite R in C; now contradiction C
  | C : captured ?i ?n <> None, R : new_Request ?i ?n = inr ?q,
    B : arrayBuffer ?q = inl _ |- _ =>
      unfold captured in C; rewrite R, B in C; now contradiction C
  end.

Ltac same_capture :=
  match goal with
  | C : captured ?i ?n = Some (?q, ?b), D : captured ?i ?n = Some _ |- _ =>
      rewrite C in D; injection D as <- <-
  end.

Ltac same_reply :=
  repeat match goal with x := _ |- _ => subst x end;
  match goal with
  | A : ?f = inr _, B : ?f = inr _ |- _ => rewrite A in B; injection B as <-
  | A : ?f = inl _, B : ?f = inl _ |- _ => rewrite A in B; injection B as <-
  | A : ?f = inl _, B : ?f = inr _ |- _ => rewrite A in B; discriminate B
  | A : ?f = inr _, B : ?f = inl _ |- _ => rewrite A in B; discriminate B
  end.

(** ** Cancellation and rejection around the issue call *)

Section Cancellation.
Context `{Runtime}.
Variable engine : Engine.
Variables (input : RequestInfo) (init : option RequestInit)
          (options : option ClientOptions).

(** C1.  When the signal is already aborted before the issue call, no
    call at all reaches the engine; and when it is seen aborted at one
    of the two checkpoints before that call (at entry, or after the
    request was constructed and its body read), [fetch] throws the
    cancellation error. *)
Theorem fetch_aborted_before_issue :
  aborted_at init 1 = true ->
  calls (snd (run (fetch engine input init options))) = [] /\
  (aborted_at init 0 = true \/ captured input init <> None ->
   fst (run (fetch engine input init options)) =
     Throw (Raised (new_Error ERROR_REQUEST_CANCELLED))).
Proof.
  intro A1. by_path engine input init options; cbn;
    try solve [signal_clash
              | split; [reflexivity|]; intros [?|?];
                solve [reflexivity | signal_clash | capture_clash]].
Qed.

(** C2.  When the signal is seen aborted once the issue call has
    returned the handle [rid], the binding makes the cancel call for
    that very handle, does not wait for its answer, and throws the
    cancellation error; no status or body call follows. *)
Theorem fetch_aborted_after_issue req buffer rid :
  aborted_at init 1 = false ->
  aborted_at init 2 = true ->
  captured input init = Some (req, buffer) ->
  engine_fetch engine (clientConfig_of req buffer options)
    [Fetch (clientConfig_of req buffer options)] = inr rid ->
  fst (run (fetch engine input init options)) =
    Throw (Raised (new_Error ERROR_REQUEST_CANCELLED)) /\
  calls (snd (run (fetch engine input init options))) =
    [Fetch (clientConfig_of req buffer options); FetchCancel rid] /\
  now (snd (run (fetch engine input init options))) = 2.
Proof.
  intros A1 A2 Hcap Hissue.
  by_path engine input init options; cbn;
    try solve [signal_clash | capture_clash];
    same_capture; same_reply.
  repeat split.
Qed.

(** C6.  When the engine rejects the issue call, [fetch] rejects with
    that very value, and the issue call is the only call the engine
    ever sees: no second attempt, no status call, no body call. *)
Theorem issue_rejection_propagates req buffer payload :
  aborted_at init 1 = false ->
  captured input init = Some (req, buffer) ->
  engine_fetch engine (clientConfig_of req buffer options)
    [Fetch (clientConfig_of req buffer options)] = inl payload ->
  fst (run (fetch engine input init options)) = Throw (Rejected payload) /\
  calls (snd (run (fetch engine input init options))) =
    [Fetch (clientConfig_of req buffer options)].
Proof.
  intros A1 Hcap Hissue.
  by_path engine input init options; cbn;
    try solve [signal_clash | capture_clash];
    same_capture; same_reply.
  split; reflexivity.
Qed.

End Cancellation.

(** ** What the issue call carries *)

Section Transmission.
Context `{Runtime}.
Variable engine : Engine.
Variables (input : RequestInfo) (init : option RequestInit)
          (options : option ClientOptions).

Lemma fired_cancel rid t c :
  In c (fired init rid t) -> c = FetchCancel rid.
Proof.
  unfold fired, listener_of, dispatch.
  destruct (signal_of init) as [sg|]; cbn; [|tauto].
  destruct (fires_at sg) as [k|]; cbn; [|tauto].
  destruct (k =? t); cbn; intuition.
Qed.

(** Whatever issue call the engine sees carries the configuration
    built from the constructed request and its body. *)
Lemma issued_config cfg :
  In (Fetch cfg) (calls (snd (run (fetch engine input init options)))) ->
  exists req buffer,
    captured input init = Some (req, buffer) /\
    cfg = clientConfig_of req buffer options.
Proof.
  intro Hin. by_path engine input init options;
    try (rewrite (proj1 (assemble_cases _ _ _)) in Hin);
    cbn in Hin; try tauto; exists req, buffer; (split; [assumption|]);
    repeat (rewrite in_app_iff in Hin; cbn in Hin);
    repeat match goal with
           | D : _ \/ _ |- _ => destruct D
           | F : False |- _ => destruct F
           | E : Fetch _ = Fetch _ |- _ => injection E as <-
           | E : In _ (fired _ _ _) |- _ => apply fired_cancel in E
           end;
    try discriminate; reflexivity.
Qed.

(** C3.  In the issue call the engine sees, the header at each
    position is the request's header at that position: with the value
    unchanged, and with the name stripped of the reserved prefix when
    it starts with it and unchanged otherwise. *)
Theorem unsafe_header_prefix_stripped cfg :
  In (Fetch cfg) (calls (snd (run (fetch engine input init options)))) ->
  exists req,
    new_Request input init = inr req /\
    forall i key value,
      nth_error (headers req) i = Some (key, value) ->
      exists key',
        nth_error (cfg_headers cfg) i = Some (key', value) /\
        if startsWith key UNSAFE_HEADER_PREFIX
        then key = (UNSAFE_HEADER_PREFIX ++ key')%string
        else key' = key.
Proof.
  intro Hin. destruct (issued_config cfg Hin) as (req & buffer & Hcap & ->).
  exists req. split.
  - unfold captured in Hcap.
    destruct (new_Request input init) as [|q]; [discriminate|].
    destruct (arrayBuffer q); [discriminate|]. now injection Hcap as -> _.
  - intros i key value Hi. cbn [cfg_headers clientConfig_of].
    rewrite mappedHeaders_flat_map.
    destruct (pushed_nth _ _ _ Hi) as (sent & Hsent & Hpush).
    destruct (push_header_single (key, value)) as (key' & Hk & Hname).
    cbn [fst snd] in Hk, Hname.
    rewrite Hk in Hpush. injection Hpush as <-.
    now exists key'.
Qed.

(** C4.  In the issue call the engine sees, [data] is [null] when the
    request's body is empty and otherwise the body's bytes, as many
    and in the same order: reading them back as bytes gives the body
    again. *)
Theorem body_bytes_transmitted cfg :
  In (Fetch cfg) (calls (snd (run (fetch engine input init options)))) ->
  exists req buffer,
    captured input init = Some (req, buffer) /\
    (buffer = [] -> cfg_data cfg = None) /\
    (buffer <> [] ->
     exists data,
       cfg_data cfg = Some data /\
       data = Array_from_Uint8Array buffer /\
       List.length data = byteLength buffer /\
       new_Uint8Array data = buffer).
Proof.
  intro Hin. destruct (issued_config cfg Hin) as (req & buffer & Hcap & ->).
  exists req, buffer. split; [assumption|].
  cbn [cfg_data clientConfig_of]. unfold data_of, byteLength. split.
  - now intros ->.
  - intro Hne. destruct buffer as [|b buffer]; [contradiction|].
    cbn [List.length Nat.eqb negb].
    exists (Array_from_Uint8Array (b :: buffer)).
    repeat split.
    + unfold Array_from_Uint8Array. now rewrite length_map.
    + apply new_Uint8Array_Array_from.
Qed.

(** C8, as the code has it.  In the issue call the engine sees, the
    headers are the entries of the constructed request
    ([req.headers.entries()]) one for one: as many, each at its own
    position and with its value, duplicates of a name kept.  How those
    entries relate to the headers the caller gave is the host's
    [Request] constructor's doing. *)
Theorem headers_order_preserved cfg :
  In (Fetch cfg) (calls (snd (run (fetch engine input init options)))) ->
  exists req,
    new_Request input init = inr req /\
    List.length (cfg_headers cfg) = List.length (headers req) /\
    map snd (cfg_headers cfg) = map snd (headers req) /\
    forall i entry,
      nth_error (headers req) i = Some entry ->
      exists sent,
        nth_error (cfg_headers cfg) i = Some sent /\
        push_header [] entry = [sent].
Proof.
  intro Hin. destruct (issued_config cfg Hin) as (req & buffer & Hcap & ->).
  exists req. split.
  - unfold captured in Hcap.
    destruct (new_Request input init) as [|q]; [discriminate|].
    destruct (arrayBuffer q); [discriminate|]. now injection Hcap as -> _.
  - cbn [cfg_headers clientConfig_of]. rewrite mappedHeaders_flat_map.
    repeat split.
    + apply pushed_length.
    + apply pushed_values.
    + intros i entry Hi. now apply pushed_nth.
Qed.

End Transmission.

(** ** The response handed back *)

Section Responses.
Context `{Runtime}.
Variable engine : Engine.
Variables (input : RequestInfo) (init : option RequestInit)
          (options : option ClientOptions).

(** C5.  On a response [fetch] returns, [url] is the url of the
    engine's answer to the status call and [headers] is the [Headers]
    made from that answer's pairs, whatever the constructed
    [Response] would itself report for the two. *)
Theorem response_url_headers_from_engine res :
  fst (run (fetch engine input init options)) = Return res ->
  exists rid r history rest,
    calls (snd (run (fetch engine input init options))) = history ++ rest /\
    In (FetchSend rid) history /\
    engine_fetch_send engine rid history = inr r /\
    get_url res = resp_url r /\
    new_Headers (resp_headers r) = inr (get_headers res).
Proof.
  intro Hret. by_path engine input init options; try discriminate Hret.
  destruct (assemble_cases r body (at_time 4 h4 (listener_of init rid)))
    as [Hst [[e He]|(t & h & _ & Hh & Hok)]];
    rewrite Hst; [rewrite He in Hret; discriminate Hret|].
  rewrite Hok in Hret. injection Hret as <-.
  exists rid, r, h3, ([FetchReadBody (resp_rid r)] ++ fired init rid 4).
  repeat split.
  - subst h4. cbn [calls at_time]. now rewrite <- app_assoc.
  - subst h3. cbn. tauto.
  - assumption.
  - assumption.
Qed.

(** C10.  The [Response] of a returned response was constructed from
    the engine's answer to the body call, and with a [null] body when
    that answer is a zero-length [ArrayBuffer] or a zero-length
    array. *)
Theorem empty_body_becomes_null res :
  fst (run (fetch engine input init options)) = Return res ->
  exists r body,
    In (FetchReadBody (resp_rid r))
       (calls (snd (run (fetch engine input init options)))) /\
    engine_fetch_read_body engine (resp_rid r)
      (calls (snd (run (fetch engine input init options)))) = inr body /\
    new_Response (body_init body)
      {| ri_status := status r; ri_statusText := statusText r |} =
      inr (target res) /\
    (body = BodyArrayBuffer [] \/ body = BodyArray [] ->
     new_Response None
       {| ri_status := status r; ri_statusText := statusText r |} =
       inr (target res)).
Proof.
  intro Hret. by_path engine input init options; try discriminate Hret.
  destruct (assemble_cases r body (at_time 4 h4 (listener_of init rid)))
    as [Hst [[e He]|(t & h & Ht & _ & Hok)]];
    rewrite Hst; [rewrite He in Hret; discriminate Hret|].
  rewrite Hok in Hret. injection Hret as <-.
  exists r, body. cbn [calls at_time target]. repeat split.
  - subst h4. rewrite !in_app_iff. cbn. tauto.
  - assumption.
  - assumption.
  - intros [->| ->]; exact Ht.
Qed.

End Responses.

(** ** Where the signal is looked at, and what is thrown *)

Section Checkpoints.
Context `{Runtime}.
Variable engine : Engine.
Variables (input : RequestInfo) (init : option RequestInit)
          (options : option ClientOptions).

Lemma fired_when_aborting rid t :
  aborted_at init t = false ->
  aborted_at init (S t) = true ->
  fired init rid (S t) = [FetchCancel rid].
Proof.
  unfold aborted_at, signal_aborted, fired, listener_of, dispatch.
  destruct (signal_of init) as [sg|]; [|discriminate].
  cbn [flat_map]. destruct (fires_at sg) as [k|]; [|discriminate].
  intros Hf Ht. apply Nat.leb_gt in Hf. apply Nat.leb_le in Ht.
  replace (k =? S t) with true; [reflexivity|].
  symmetry. apply Nat.eqb_eq. lia.
Qed.

(** C7, as the code has it.  The signal is looked at on entry,
    immediately before the issue call and immediately before the
    status call; seen aborted there, the call throws the cancellation
    error and the call that would follow is not made.  It is not
    looked at before the body call: once the status call has been
    answered the body call is made, also when the signal fired in
    between, which the listener alone answers with its cancel call. *)
Theorem checkpoints_guard_issue_and_status :
  (aborted_at init 0 = true ->
   run (fetch engine input init options) =
     (Throw (Raised (new_Error ERROR_REQUEST_CANCELLED)), initial)) /\
  (captured input init <> None ->
   aborted_at init 1 = true ->
   fst (run (fetch engine input init options)) =
     Throw (Raised (new_Error ERROR_REQUEST_CANCELLED)) /\
   calls (snd (run (fetch engine input init options))) = []) /\
  (forall req buffer rid,
     captured input init = Some (req, buffer) ->
     engine_fetch engine (clientConfig_of req buffer options)
       [Fetch (clientConfig_of req buffer options)] = inr rid ->
     aborted_at init 2 = true ->
     fst (run (fetch engine input init options)) =
       Throw (Raised (new_Error ERROR_REQUEST_CANCELLED)) /\
     forall id,
       ~ In (FetchSend id)
           (calls (snd (run (fetch engine input init options)))) /\
       ~ In (FetchReadBody id)
           (calls (snd (run (fetch engine input init options))))) /\
  (forall req buffer rid r,
     captured input init = Some (req, buffer) ->
     engine_fetch engine (clientConfig_of req buffer options)
       [Fetch (clientConfig_of req buffer options)] = inr rid ->
     aborted_at init 2 = false ->
     engine_fetch_send engine rid
       ([Fetch (clientConfig_of req buffer options); FetchSend rid] ++
        fired init rid 3) = inr r ->
     In (FetchReadBody (resp_rid r))
        (calls (snd (run (fetch engine input init options)))) /\
     (aborted_at init 3 = true ->
      In (FetchCancel rid)
         (calls (snd (run (fetch engine input init options)))))).
Proof.
  repeat split.
  - intro A0. by_path engine input init options;
      solve [reflexivity | signal_clash].
  - by_path engine input init options;
      solve [reflexivity | signal_clash | capture_clash].
  - by_path engine input init options;
      solve [reflexivity | signal_clash | capture_clash].
  - by_path engine input init options;
      try solve [reflexivity | signal_clash | capture_clash];
      same_capture; same_reply.
  - by_path engine input init options;
      try solve [signal_clash | capture_clash];
      try (same_capture; same_reply);
      intro Hin; cbn in Hin; intuition discriminate.
  - by_path engine input init options;
      try solve [signal_clash | capture_clash];
      try (same_capture; same_reply);
      intro Hin; cbn in Hin; intuition discriminate.
  - by_path engine input init options;
      try solve [signal_clash | capture_clash];
      same_capture; same_reply; try same_reply;
      try rewrite (proj1 (assemble_cases _ _ _));
      cbn [snd calls at_time]; rewrite !in_app_iff; cbn; tauto.
  - intro A3. by_path engine input init options;
      try solve [signal_clash | capture_clash];
      same_capture; same_reply; try same_reply;
      try rewrite (proj1 (assemble_cases _ _ _));
      cbn [snd calls at_time];
      rewrite (fired_when_aborting _ 2) by assumption;
      rewrite !in_app_iff; cbn; tauto.
Qed.

(** C9.  What [fetch] throws of its own is always the one [Error] with
    the message ['Request canceled'], thrown because the signal was
    seen aborted at a checkpoint and while every engine call awaited
    so far had been answered; what the engine rejects a call with
    comes out as that rejection, never as this error. *)
Theorem cancellation_error_is_local t :
  fst (run (fetch engine input init options)) = Throw t ->
  (forall e, t = Raised e ->
     e = new_Error ERROR_REQUEST_CANCELLED /\
     message e = "Request canceled" /\
     aborted_at init 2 = true /\
     (calls (snd (run (fetch engine input init options))) = [] \/
      exists cfg rid,
        engine_fetch engine cfg [Fetch cfg] = inr rid /\
        calls (snd (run (fetch engine input init options))) =
          [Fetch cfg; FetchCancel rid])) /\
  (forall payload, t = Rejected payload ->
     t <> Raised (new_Error ERROR_REQUEST_CANCELLED) /\
     exists history rest,
       calls (snd (run (fetch engine input init options))) =
         history ++ rest /\
       ((exists cfg, engine_fetch engine cfg history = inl payload) \/
        (exists rid, engine_fetch_send engine rid history = inl payload) \/
        (exists rid,
           engine_fetch_read_body engine rid history = inl payload))).
Proof.
  intro Hthrow. split.
  - intros e ->. by_path engine input init options; cbn [fst] in Hthrow;
      try discriminate Hthrow.
    + injection Hthrow as <-. repeat split.
      * now apply (aborted_at_mono init 0 2); [lia|].
      * now left.
    + injection Hthrow as <-. repeat split.
      * now apply (aborted_at_mono init 1 2); [lia|].
      * now left.
    + injection Hthrow as <-. repeat split; [assumption|].
      right. now exists cfg, rid.
    + destruct (assemble_cases r body (at_time 4 h4 (listener_of init rid)))
        as [_ [[e' He]|(? & ? & _ & _ & Hok)]].
      * rewrite He in Hthrow. discriminate Hthrow.
      * rewrite Hok in Hthrow. discriminate Hthrow.
  - intros payload ->. split; [discriminate|].
    by_path engine input init options; cbn [fst] in Hthrow;
      try discriminate Hthrow.
    + injection Hthrow as <-. exists [Fetch cfg], []. split; [reflexivity|].
      left. now exists cfg.
    + injection Hthrow as <-. exists h3, []. cbn [snd calls at_time].
      rewrite app_nil_r. split; [reflexivity|].
      right; left. now exists rid.
    + injection Hthrow as <-. exists h4, []. cbn [snd calls at_time].
      rewrite app_nil_r. split; [reflexivity|].
      right; right. now exists (resp_rid r).
    + destruct (assemble_cases r body (at_time 4 h4 (listener_of init rid)))
        as [_ [[e' He]|(? & ? & _ & _ & Hok)]].
      * rewrite He in Hthrow. discriminate Hthrow.
      * rewrite Hok in Hthrow. discriminate Hthrow.
Qed.

End Checkpoints.


(** ** The other exits of [fetch] *)

Section Failures.
Context `{Runtime}.
Variable engine : Engine.
Variables (input : RequestInfo) (init : option RequestInit)
          (options : option ClientOptions).

(** X1.  [setClientOptions] makes the one call
    [plugin:http|set_client_options] with the options as given, waits
    for it once, and settles with the engine's answer: resolved when
    the engine resolves, rejected with the engine's value otherwise. *)
Theorem setClientOptions_single_call (o : ClientOptions) :
  calls (snd (run (setClientOptions engine o))) = [SetClientOptions o] /\
  now (snd (run (setClientOptions engine o))) = 1 /\
  (forall payload,
     engine_set_client_options engine o [SetClientOptions o] = inl payload ->
     fst (run (setClientOptions engine o)) = Throw (Rejected payload)) /\
  (forall u,
     engine_set_client_options engine o [SetClientOptions o] = inr u ->
     fst (run (setClientOptions engine o)) = Return u).
Proof.
  unfold run, setClientOptions, bind, invoke, await, suspend, initial; cbn.
  repeat split; intros x Hx; now rewrite Hx.
Qed.

(** X2.  When the signal is not aborted on entry and constructing the
    request throws, or reading its body fails, [fetch] fails with that
    very exception and the engine sees no call, also when the signal
    fired while the body was read. *)
Theorem host_failure_before_issue :
  aborted_at init 0 = false ->
  captured input init = None ->
  exists e,
    fst (run (fetch engine input init options)) = Throw (HostThrown e) /\
    calls (snd (run (fetch engine input init options))) = [] /\
    (new_Request input init = inl e \/
     exists req, new_Request input init = inr req /\ arrayBuffer req = inl e).
Proof.
  intros A0 Hcap. by_path engine input init options;
    try congruence.
  - exists e. repeat split. now left.
  - exists e. repeat split. right. now exists req.
Qed.

(** X3.  When the engine rejects the status call, [fetch] rejects with
    that very value; the engine has seen the issue call, the status
    call and at most the listener's cancel, and never a body call. *)
Theorem status_rejection_propagates req buffer rid payload :
  aborted_at init 2 = false ->
  captured input init = Some (req, buffer) ->
  engine_fetch engine (clientConfig_of req buffer options)
    [Fetch (clientConfig_of req buffer options)] = inr rid ->
  engine_fetch_send engine rid
    ([Fetch (clientConfig_of req buffer options); FetchSend rid] ++
     fired init rid 3) = inl payload ->
  fst (run (fetch engine input init options)) = Throw (Rejected payload) /\
  calls (snd (run (fetch engine input init options))) =
    [Fetch (clientConfig_of req buffer options); FetchSend rid] ++
    fired init rid 3 /\
  forall id,
    ~ In (FetchReadBody id)
        (calls (snd (run (fetch engine input init options)))).
Proof.
  intros A2 Hcap Hissue Hsend.
  by_path engine input init options;
    try solve [signal_clash | capture_clash];
    same_capture; same_reply; same_reply.
  cbn [fst snd calls at_time]. repeat split.
  intros id Hin. cbn in Hin. destruct Hin as [E|[E|E]]; try discriminate E.
  apply fired_cancel in E. discriminate E.
Qed.

(** X4.  When the engine rejects the body call, [fetch] rejects with
    that very value, after the three calls of the protocol. *)
Theorem body_rejection_propagates req buffer rid r payload :
  aborted_at init 2 = false ->
  captured input init = Some (req, buffer) ->
  engine_fetch engine (clientConfig_of req buffer options)
    [Fetch (clientConfig_of req buffer options)] = inr rid ->
  engine_fetch_send engine rid
    ([Fetch (clientConfig_of req buffer options); FetchSend rid] ++
     fired init rid 3) = inr r ->
  engine_fetch_read_body engine (resp_rid r)
    ((([Fetch (clientConfig_of req buffer options); FetchSend rid] ++
       fired init rid 3) ++ [FetchReadBody (resp_rid r)]) ++
     fired init rid 4) = inl payload ->
  fst (run (fetch engine input init options)) = Throw (Rejected payload) /\
  calls (snd (run (fetch engine input init options))) =
    (([Fetch (clientConfig_of req buffer options); FetchSend rid] ++
      fired init rid 3) ++ [FetchReadBody (resp_rid r)]) ++
    fired init rid 4.
Proof.
  intros A2 Hcap Hissue Hsend Hbody.
  by_path engine input init options;
    try solve [signal_clash | capture_clash];
    same_capture; same_reply; same_reply; same_reply.
  split; reflexivity.
Qed.

(** X5.  When every check passes, the engine answers the three calls
    and the host builds the [Response] and the [Headers], [fetch]
    returns that [Response] with [url] and [headers] overridden; a
    signal that fires while the status or the body call is pending does
    not change this. *)
Theorem fetch_returns req buffer rid r body t h :
  aborted_at init 2 = false ->
  captured input init = Some (req, buffer) ->
  engine_fetch engine (clientConfig_of req buffer options)
    [Fetch (clientConfig_of req buffer options)] = inr rid ->
  engine_fetch_send engine rid
    ([Fetch (clientConfig_of req buffer options); FetchSend rid] ++
     fired init rid 3) = inr r ->
  engine_fetch_read_body engine (resp_rid r)
    ((([Fetch (clientConfig_of req buffer options); FetchSend rid] ++
       fired init rid 3) ++ [FetchReadBody (resp_rid r)]) ++
     fired init rid 4) = inr body ->
  new_Response (body_init body)
    {| ri_status := status r; ri_statusText := statusText r |} = inr t ->
  new_Headers (resp_headers r) = inr h ->
  fst (run (fetch engine input init options)) =
    Return {| target := t; own_url := Some (resp_url r);
              own_headers := Some h |} /\
  calls (snd (run (fetch engine input init options))) =
    (([Fetch (clientConfig_of req buffer options); FetchSend rid] ++
      fired init rid 3) ++ [FetchReadBody (resp_rid r)]) ++
    fired init rid 4.
Proof.
  intros A2 Hcap Hissue Hsend Hbody Ht Hh.
  by_path engine input init options;
    try solve [signal_clash | capture_clash];
    same_capture; same_reply; same_reply; same_reply.
  unfold assemble, bind, host. rewrite Ht. cbn. rewrite Hh. cbn.
  split; reflexivity.
Qed.

(** X6.  When the engine has answered all three calls and the host
    then refuses to build the [Response] (a status it does not accept,
    say) or the [Headers], [fetch] fails with the host's exception; the
    three calls have been made by then. *)
Theorem assembly_failure_propagates req buffer rid r body e :
  aborted_at init 2 = false ->
  captured input init = Some (req, buffer) ->
  engine_fetch engine (clientConfig_of req buffer options)
    [Fetch (clientConfig_of req buffer options)] = inr rid ->
  engine_fetch_send engine rid
    ([Fetch (clientConfig_of req buffer options); FetchSend rid] ++
     fired init rid 3) = inr r ->
  engine_fetch_read_body engine (resp_rid r)
    ((([Fetch (clientConfig_of req buffer options); FetchSend rid] ++
       fired init rid 3) ++ [FetchReadBody (resp_rid r)]) ++
     fired init rid 4) = inr body ->
  new_Response (body_init body)
    {| ri_status := status r; ri_statusText := statusText r |} = inl e \/
  ((exists t, new_Response (body_init body)
      {| ri_status := status r; ri_statusText := statusText r |} = inr t) /\
   new_Headers (resp_headers r) = inl e) ->
  fst (run (fetch engine input init options)) = Throw (HostThrown e) /\
  In (FetchReadBody (resp_rid r))
     (calls (snd (run (fetch engine input init options)))).
Proof.
  intros A2 Hcap Hissue Hsend Hbody Hfail.
  by_path engine input init options;
    try solve [signal_clash | capture_clash];
    same_capture; same_reply; same_reply; same_reply.
  unfold assemble, bind, host.
  destruct Hfail as [Ht|([t Ht] & Hh)].
  - rewrite Ht. cbn. split; [reflexivity|].
    rewrite !in_app_iff. cbn. tauto.
  - rewrite Ht. cbn. rewrite Hh. cbn. split; [reflexivity|].
    rewrite !in_app_iff. cbn. tauto.
Qed.

End Failures.

(** ** The calls the engine sees, taken together *)

Section Protocol.
Context `{Runtime}.
Variable engine : Engine.
Variables (input : RequestInfo) (init : option RequestInit)
          (options : option ClientOptions).

Lemma fired_only_cancels rid t :
  filter (fun c => negb (is_cancel c)) (fired init rid t) = [].
Proof.
  unfold fired, listener_of, dispatch.
  destruct (signal_of init) as [sg|]; [|reflexivity].
  cbn [flat_map]. destruct (fires_at sg) as [k|]; [|reflexivity].
  destruct (k =? t); reflexivity.
Qed.

Lemma fired_implies_aborted rid t c :
  In c (fired init rid t) -> aborted_at init t = true.
Proof.
  unfold fired, listener_of, dispatch, aborted_at, signal_aborted.
  destruct (signal_of init) as [sg|]; [|intros []].
  cbn [flat_map]. destruct (fires_at sg) as [k|]; [|intros []].
  destruct (k =? t) eqn:E; [|intros []].
  intros _. apply Nat.eqb_eq in E. subst k. apply Nat.leb_refl.
Qed.

Lemma fired_once rid t t' :
  t <> t' ->
  List.length (fired init rid t ++ fired init rid t') <= 1.
Proof.
  intro Hne. unfold fired, listener_of, dispatch.
  destruct (signal_of init) as [sg|]; [|cbn; lia].
  cbn [flat_map]. destruct (fires_at sg) as [k|]; [|cbn; lia].
  destruct (k =? t) eqn:E, (k =? t') eqn:E'; cbn; try lia.
  apply Nat.eqb_eq in E, E'. congruence.
Qed.

(** X7.  Leaving the cancel calls aside, the engine sees a beginning of
    the sequence issue, status, body and nothing else: at most one call
    of each, the status call for the handle the issue call returned and
    the body call for the handle the status call returned. *)
Theorem protocol_order :
  let protocol :=
    filter (fun c => negb (is_cancel c))
      (calls (snd (run (fetch engine input init options)))) in
  protocol = [] \/
  exists cfg,
    protocol = [Fetch cfg] \/
    exists rid,
      engine_fetch engine cfg [Fetch cfg] = inr rid /\
      (protocol = [Fetch cfg; FetchSend rid] \/
       exists r history,
         engine_fetch_send engine rid history = inr r /\
         protocol = [Fetch cfg; FetchSend rid; FetchReadBody (resp_rid r)]).
Proof.
  cbv zeta. by_path engine input init options;
    try rewrite (proj1 (assemble_cases _ _ _));
    cbn [snd calls at_time initial];
    try (now left);
    right; exists cfg.
  - now left.
  - now left.
  - right. exists rid. split; [assumption|]. left.
    subst h3. rewrite filter_app, fired_only_cancels. reflexivity.
  - right. exists rid. split; [assumption|]. right. exists r, h3.
    split; [assumption|].
    subst h4 h3. rewrite !filter_app, !fired_only_cancels. reflexivity.
  - right. exists rid. split; [assumption|]. right. exists r, h3.
    split; [assumption|].
    subst h4 h3. rewrite !filter_app, !fired_only_cancels. reflexivity.
Qed.

(** X8.  The issue call is the first call the engine sees and is made
    once: whatever fails afterwards, the request is not issued again. *)
Theorem issue_call_first_and_once c :
  In c (calls (snd (run (fetch engine input init options)))) ->
  exists cfg rest,
    calls (snd (run (fetch engine input init options))) = Fetch cfg :: rest /\
    forall cfg', ~ In (Fetch cfg') rest.
Proof.
  intro Hin. by_path engine input init options;
    try rewrite (proj1 (assemble_cases _ _ _)) in *;
    cbn [snd calls at_time initial] in *;
    try (now destruct Hin);
    eexists; eexists; (split; [reflexivity|]);
    intros cfg' Hc; cbn in Hc;
    repeat (rewrite in_app_iff in Hc; cbn in Hc);
    repeat match goal with
           | D : _ \/ _ |- _ => destruct D
           | F : False |- _ => destruct F
           | E : In _ (fired _ _ _) |- _ => apply fired_cancel in E
           end;
    discriminate.
Qed.

(** X9.  A cancel call is only ever made once the signal has fired, and
    only for the handle the issue call returned (never for the handle
    of the body); and the engine sees at most one. *)
Theorem cancel_only_for_issued_handle :
  (forall id,
     In (FetchCancel id)
        (calls (snd (run (fetch engine input init options)))) ->
     aborted_at init (now (snd (run (fetch engine input init options)))) =
       true /\
     exists req buffer,
       captured input init = Some (req, buffer) /\
       engine_fetch engine (clientConfig_of req buffer options)
         [Fetch (clientConfig_of req buffer options)] = inr id) /\
  List.length
    (filter is_cancel
       (calls (snd (run (fetch engine input init options))))) <= 1.
Proof.
  split.
  - intros id Hin. by_path engine input init options;
      try rewrite (proj1 (assemble_cases _ _ _)) in *;
      cbn [snd calls now at_time initial] in *;
      try (now destruct Hin);
      repeat match goal with x := _ |- _ => subst x end;
      cbn [In app] in Hin; rewrite ?in_app_iff in Hin; cbn [In] in Hin;
      repeat match goal with
             | D : _ \/ _ |- _ => destruct D
             | F : False |- _ => destruct F
             | E : FetchCancel _ = FetchCancel _ |- _ => injection E as <-
             | E : In _ (fired _ _ 3) |- _ =>
                 pose proof (fired_implies_aborted _ _ _ E);
                 apply fired_cancel in E
             | E : In _ (fired _ _ 4) |- _ =>
                 pose proof (fired_implies_aborted _ _ _ E);
                 apply fired_cancel in E
             end;
      try discriminate;
      (split;
       [solve [assumption
              | eapply (aborted_at_mono init 3 4); [lia|eassumption]]
       | exists req, buffer; split; assumption]).
  - by_path engine input init options;
      try rewrite (proj1 (assemble_cases _ _ _));
      cbn [snd calls at_time initial]; try (cbn; lia).
    + subst h3. cbn [app filter is_cancel].
      pose proof (fired_once rid 3 4 ltac:(lia)) as L.
      rewrite length_app in L.
      pose proof (filter_length_le is_cancel (fired init rid 3)). lia.
    + subst h4 h3. rewrite !filter_app. cbn [app filter is_cancel].
      rewrite !length_app. cbn [List.length].
      pose proof (fired_once rid 3 4 ltac:(lia)) as L.
      rewrite length_app in L.
      pose proof (filter_length_le is_cancel (fired init rid 3)).
      pose proof (filter_length_le is_cancel (fired init rid 4)). lia.
    + subst h4 h3. rewrite !filter_app. cbn [app filter is_cancel].
      rewrite !length_app. cbn [List.length].
      pose proof (fired_once rid 3 4 ltac:(lia)) as L.
      rewrite length_app in L.
      pose proof (filter_length_le is_cancel (fired init rid 3)).
      pose proof (filter_length_le is_cancel (fired init rid 4)). lia.
Qed.

(** X10.  Once the issue call has returned a handle, a signal that is
    aborted by the time [fetch] settles has had its cancel call for
    that handle, whichever way [fetch] settles: no handle is left
    without a cancel on an aborted call. *)
Theorem aborted_call_has_cancelled req buffer rid :
  aborted_at init 1 = false ->
  captured input init = Some (req, buffer) ->
  engine_fetch engine (clientConfig_of req buffer options)
    [Fetch (clientConfig_of req buffer options)] = inr rid ->
  aborted_at init (now (snd (run (fetch engine input init options)))) = true ->
  In (FetchCancel rid) (calls (snd (run (fetch engine input init options)))).
Proof.
  intros A1 Hcap Hissue.
  by_path engine input init options;
    try rewrite (proj1 (assemble_cases _ _ _));
    cbn [snd calls now at_time initial];
    try solve [signal_clash | capture_clash];
    same_capture; same_reply; try same_reply; try same_reply;
    intro Hnow.
  - cbn. tauto.
  - rewrite (fired_when_aborting init rid 2) by assumption. cbn. tauto.
  - destruct (aborted_at init 3) eqn:A3.
    + rewrite (fired_when_aborting init rid 2) by assumption. cbn. tauto.
    + rewrite (fired_when_aborting init rid 3) by assumption.
      rewrite !in_app_iff. cbn. tauto.
  - destruct (aborted_at init 3) eqn:A3.
    + rewrite (fired_when_aborting init rid 2) by assumption. cbn. tauto.
    + rewrite (fired_when_aborting init rid 3) by assumption.
      rewrite !in_app_iff. cbn. tauto.
Qed.

(** X11.  Without a signal ([init] absent, or without [signal]),
    [fetch] never throws the cancellation error, never makes a cancel
    call and attaches no listener. *)
Theorem no_signal_no_cancellation :
  signal_of init = None ->
  fst (run (fetch engine input init options)) <>
    Throw (Raised (new_Error ERROR_REQUEST_CANCELLED)) /\
  (forall id,
     ~ In (FetchCancel id)
         (calls (snd (run (fetch engine input init options))))) /\
  listeners (snd (run (fetch engine input init options))) = [].
Proof.
  intro Hsig.
  assert (Hnever : forall t, aborted_at init t = false)
    by (intro t; unfold aborted_at; now rewrite Hsig).
  assert (Hquiet : forall rid t, fired init rid t = [])
    by (intros rid t; unfold fired, listener_of; now rewrite Hsig).
  assert (Hnone : forall rid, listener_of init rid = [])
    by (intro rid; unfold listener_of; now rewrite Hsig).
  by_path engine input init options;
    try match goal with
        | T : aborted_at init _ = true |- _ => rewrite Hnever in T; discriminate T
        end;
    try (destruct (assemble_cases r body (at_time 4 h4 (listener_of init rid)))
           as [-> [[e' ->]|(? & ? & _ & _ & ->)]]);
    cbn [fst snd calls listeners at_time initial];
    repeat (try subst h4; try subst h3); rewrite ?Hquiet, ?Hnone;
    (repeat split; [discriminate | intros id Hin; cbn in Hin; intuition discriminate]).
Qed.

End Protocol.

(** ** The cancel call's answer, and aborts after the call *)

Section Aftermath.
Context `{Runtime}.
Variables (input : RequestInfo) (init : option RequestInit)
          (options : option ClientOptions).

(** X12.  What the engine answers to a cancel call has no effect on
    [fetch]: two engines that answer the issue, status and body calls
    alike give the same outcome and the same calls, however they answer
    cancels. *)
Theorem cancel_answer_ignored (engine engine' : Engine) :
  engine_fetch engine = engine_fetch engine' ->
  engine_fetch_send engine = engine_fetch_send engine' ->
  engine_fetch_read_body engine = engine_fetch_read_body engine' ->
  run (fetch engine input init options) =
  run (fetch engine' input init options).
Proof.
  destruct engine as [o f c s b], engine' as [o' f' c' s' b'].
  cbn. intros <- <- <-.
  unfold run, fetch, bind, aborted, host, host_promise, await, invoke,
    addEventListener, throw, ret.
  cbn.
  repeat match goal with
         | |- context [match ?x with _ => _ end] => destruct x eqn:?; cbn
         end; reflexivity.
Qed.

Lemma elapse_succ n s : elapse (S n) s = suspend (elapse n s).
Proof. reflexivity. Qed.

Lemma elapse_quiet sg c t n s :
  listeners s = [(sg, c)] ->
  fires_at sg = Some t ->
  now s + n < t ->
  elapse n s = {| now := now s + n; calls := calls s;
                  listeners := listeners s |}.
Proof.
  intros Hl Hf. induction n as [|n IH]; intro Hlt.
  - cbn. rewrite Nat.add_0_r. now destruct s.
  - rewrite elapse_succ, IH by lia.
    unfold suspend, dispatch. cbn [now calls listeners].
    rewrite Hl. cbn [flat_map]. rewrite Hf.
    replace (t =? S (now s + n)) with false
      by (symmetry; apply Nat.eqb_neq; lia).
    cbn. now rewrite app_nil_r, Nat.add_succ_r.
Qed.

Lemma elapse_firing sg c t n s :
  listeners s = [(sg, c)] ->
  fires_at sg = Some t ->
  now s + S n = t ->
  calls (elapse (S n) s) = calls s ++ [c].
Proof.
  intros Hl Hf Ht.
  rewrite elapse_succ, (elapse_quiet sg c t n s Hl Hf) by lia.
  unfold suspend, dispatch. cbn [now calls listeners].
  rewrite Hl. cbn [flat_map]. rewrite Hf.
  replace (t =? S (now s + n)) with true
    by (symmetry; apply Nat.eqb_eq; lia).
  reflexivity.
Qed.

(** X13.  The listener stays attached once [fetch] has returned: when
    the signal fires only later, nothing is sent until then, and at
    that moment the engine is sent the cancel call for the handle of
    the request, long answered. *)
Theorem late_abort_still_cancels (engine : Engine) res sg t :
  fst (run (fetch engine input init options)) = Return res ->
  signal_of init = Some sg ->
  fires_at sg = Some t ->
  4 < t ->
  exists rid,
    In (FetchSend rid) (calls (snd (run (fetch engine input init options)))) /\
    (forall n, n < t - 4 ->
       calls (elapse n (snd (run (fetch engine input init options)))) =
       calls (snd (run (fetch engine input init options)))) /\
    calls (elapse (t - 4) (snd (run (fetch engine input init options)))) =
      calls (snd (run (fetch engine input init options))) ++
      [FetchCancel rid].
Proof.
  intros Hret Hsig Hf Ht.
  by_path engine input init options; try discriminate Hret.
  rewrite (proj1 (assemble_cases _ _ _)).
  assert (Hl : listeners (at_time 4 h4 (listener_of init rid)) =
               [(sg, FetchCancel rid)])
    by (unfold listener_of; now rewrite Hsig).
  exists rid. repeat split.
  - subst h4 h3. cbn. tauto.
  - intros n Hn.
    rewrite (elapse_quiet sg (FetchCancel rid) t n _ Hl Hf); [reflexivity|].
    cbn [now at_time]. lia.
  - destruct (t - 4) as [|m] eqn:Em; [lia|].
    apply (elapse_firing sg (FetchCancel rid) t m _ Hl Hf).
    cbn [now at_time]. lia.
Qed.

End Aftermath.

(** ** The conversions on their own *)

Lemma substring_whole (s : string) :
  String.substring 0 (String.length s) s = s.
Proof. induction s as [|c s IH]; cbn; [reflexivity|now rewrite IH]. Qed.

Lemma startsWith_append (p s : string) : startsWith (p ++ s) p = true.
Proof.
  unfold startsWith. induction p as [|a p IH]; cbn.
  - now destruct s.
  - destruct (ascii_dec a a) as [_|N]; [exact IH|now destruct N].
Qed.

Lemma substring_from_append (p s : string) :
  substring_from (p ++ s) (String.length p) = s.
Proof.
  unfold substring_from. induction p as [|a p IH]; cbn.
  - rewrite Nat.sub_0_r. apply substring_whole.
  - exact IH.
Qed.

(** X14.  Wrapping a header name in the reserved prefix and sending it
    gives the name back, whatever the name: the prefix is taken off
    once, so a name that itself starts with the prefix, or is empty,
    comes out as it was wrapped. *)
Theorem wrapped_headers_unwrapped (req : Request)
    (l : list (string * string)) :
  headers req =
    map (fun e => ((UNSAFE_HEADER_PREFIX ++ fst e)%string, snd e)) l ->
  mappedHeaders_of req = l.
Proof.
  intro Hh. rewrite mappedHeaders_flat_map, Hh. clear Hh.
  induction l as [|[key value] l IH]; [reflexivity|].
  cbn [map flat_map fst snd]. rewrite IH.
  unfold push_header.
  now rewrite startsWith_append, substring_from_append.
Qed.

(** X15.  When no header name of the request starts with the reserved
    prefix, the headers are sent exactly as the request has them. *)
Theorem plain_headers_unchanged (req : Request) :
  Forall (fun e => startsWith (fst e) UNSAFE_HEADER_PREFIX = false)
    (headers req) ->
  mappedHeaders_of req = headers req.
Proof.
  rewrite mappedHeaders_flat_map.
  induction (headers req) as [|[key value] l IH]; intro Hall;
    [reflexivity|].
  inversion Hall as [|? ? Hkey Hrest]; subst.
  cbn [flat_map]. rewrite (IH Hrest).
  unfold push_header. cbn [fst] in Hkey. now rewrite Hkey.
Qed.

(** X16.  What the request side sends for a body, the response side
    reads back to the same bytes: the [data] made from a non-empty
    buffer, returned as it is by a body call, becomes a response body
    holding the buffer's bytes; and an empty buffer is sent as [null]. *)
Theorem echoed_body_round_trip (buffer : ArrayBuffer) :
  match data_of buffer with
  | Some data => buffer <> [] /\
                 body_init (BodyArray data) = Some (InitUint8Array buffer)
  | None => buffer = []
  end.
Proof.
  unfold data_of, byteLength.
  destruct buffer as [|b buffer]; [reflexivity|].
  cbn [List.length Nat.eqb negb]. split; [discriminate|].
  unfold body_init, Array_from_Uint8Array.
  rewrite length_map. cbn [List.length Nat.ltb Nat.leb].
  fold (Array_from_Uint8Array (b :: buffer)).
  now rewrite new_Uint8Array_Array_from.
Qed.

(** X17.  The response body is [null] only for an empty answer: a
    non-empty [ArrayBuffer] is handed to the [Response] as it is, and a
    non-empty array as a [Uint8Array] of as many elements. *)
Theorem body_init_null_iff_empty (body : BodyReply) :
  (body_init body = None <->
   body = BodyArrayBuffer [] \/ body = BodyArray []) /\
  (forall b, body = BodyArrayBuffer b -> b <> [] ->
     body_init body = Some (InitArrayBuffer b)) /\
  (forall a, body = BodyArray a -> a <> [] ->
     exists bytes,
       body_init body = Some (InitUint8Array bytes) /\
       List.length bytes = List.length a).
Proof.
  repeat split.
  - destruct body as [[|b l]|[|a l]]; cbn; intro E;
      solve [now left | now right | discriminate E].
  - intros [-> | ->]; reflexivity.
  - intros b -> Hne. destruct b; [contradiction|reflexivity].
  - intros a -> Hne. destruct a as [|x a]; [contradiction|].
    eexists. split; [reflexivity|].
    unfold new_Uint8Array. now rewrite length_map.
Qed.

Section Passthrough.
Context `{Runtime}.
Variable engine : Engine.
Variables (input : RequestInfo) (init : option RequestInit)
          (options : option ClientOptions).

(** X18.  The issue call carries the method and the url of the
    constructed request and the caller's [options] exactly as given:
    the binding neither fills in nor changes any option. *)
Theorem issue_carries_request_and_options cfg :
  In (Fetch cfg) (calls (snd (run (fetch engine input init options)))) ->
  cfg_options cfg = options /\
  exists req,
    new_Request input init = inr req /\
    cfg_method cfg = method req /\
    cfg_url cfg = url req.
Proof.
  intro Hin. destruct (issued_config engine input init options cfg Hin)
    as (req & buffer & Hcap & ->).
  split; [reflexivity|]. exists req. repeat split.
  unfold captured in Hcap.
  destruct (new_Request input init) as [|q]; [discriminate|].
  destruct (arrayBuffer q); [discriminate|]. now injection Hcap as -> _.
Qed.

End Passthrough.
(** ** The properties on concrete calls *)

Import Sample.

Example end_to_end :
  run (fetch ok_engine input None None) =
    (Return
       {| target := {| sr_body := Some (InitUint8Array (new_Uint8Array json_a1));
                       sr_status := 200%Z; sr_statusText := "OK" |};
          own_url := Some "http://h/data.json";
          own_headers := Some [("content-type", "application/json");
                               ("set-cookie", "a=1")] |},
     {| now := 4;
        calls := [Fetch {| cfg_method := "GET"; cfg_url := "http://h/data.json";
                           cfg_headers := []; cfg_data := None;
                           cfg_options := None |};
                  FetchSend 1; FetchReadBody 2]%Z;
        listeners := [] |}).
Proof. reflexivity. Qed.

Lemma fetch_aborted_before_issue_witness :
  aborted_at (Some (init_firing 1)) 1 = true /\
  calls (snd (run (fetch ok_engine input (Some (init_firing 1)) None))) = [] /\
  fst (run (fetch ok_engine input (Some (init_firing 1)) None)) =
    Throw (Raised (new_Error ERROR_REQUEST_CANCELLED)).
Proof.
  split; [reflexivity|].
  destruct (fetch_aborted_before_issue ok_engine input
              (Some (init_firing 1)) None eq_refl) as [Hcalls Hthrow].
  split; [exact Hcalls|].
  apply Hthrow. right. vm_compute. discriminate.
Defined.

Lemma fetch_aborted_after_issue_witness :
  fst (run (fetch ok_engine input (Some (init_firing 2)) None)) =
    Throw (Raised (new_Error ERROR_REQUEST_CANCELLED)) /\
  calls (snd (run (fetch ok_engine input (Some (init_firing 2)) None))) =
    [Fetch cfg; FetchCancel 1%Z] /\
  now (snd (run (fetch ok_engine input (Some (init_firing 2)) None))) = 2.
Proof.
  apply (fetch_aborted_after_issue ok_engine input (Some (init_firing 2))
           None req [x01; x02; xff] 1%Z); reflexivity.
Defined.

Lemma issue_rejection_propagates_witness :
  fst (run (fetch denying_engine input (Some (init_firing 7)) None)) =
    Throw (Rejected "url not allowed on the configured scope") /\
  calls (snd (run (fetch denying_engine input (Some (init_firing 7)) None))) =
    [Fetch cfg].
Proof.
  apply (issue_rejection_propagates denying_engine input
           (Some (init_firing 7)) None req [x01; x02; xff]); reflexivity.
Defined.

Lemma unsafe_header_prefix_stripped_witness :
  exists r,
    new_Request input (Some (init_firing 7)) = inr r /\
    forall i key value,
      nth_error (headers r) i = Some (key, value) ->
      exists key',
        nth_error (cfg_headers cfg) i = Some (key', value) /\
        if startsWith key UNSAFE_HEADER_PREFIX
        then key = (UNSAFE_HEADER_PREFIX ++ key')%string
        else key' = key.
Proof.
  apply (unsafe_header_prefix_stripped ok_engine input
           (Some (init_firing 7)) None cfg).
  left; reflexivity.
Defined.

Lemma body_bytes_transmitted_witness :
  exists r buffer,
    captured input (Some (init_firing 7)) = Some (r, buffer) /\
    (buffer = [] -> cfg_data cfg = None) /\
    (buffer <> [] ->
     exists data,
       cfg_data cfg = Some data /\
       data = Array_from_Uint8Array buffer /\
       List.length data = byteLength buffer /\
       new_Uint8Array data = buffer).
Proof.
  apply (body_bytes_transmitted ok_engine input
           (Some (init_firing 7)) None cfg).
  left; reflexivity.
Defined.

Lemma headers_order_preserved_witness :
  exists r,
    new_Request input (Some (init_firing 7)) = inr r /\
    List.length (cfg_headers cfg) = List.length (headers r) /\
    map snd (cfg_headers cfg) = map snd (headers r) /\
    forall i entry,
      nth_error (headers r) i = Some entry ->
      exists sent,
        nth_error (cfg_headers cfg) i = Some sent /\
        push_header [] entry = [sent].
Proof.
  apply (headers_order_preserved ok_engine input
           (Some (init_firing 7)) None cfg).
  left; reflexivity.
Defined.

(** C8, as the claim states it, fails on this call: the caller gives
    [x-b], [x-a], [x-b]; the constructed request iterates over its
    headers sorted and with the two [x-b] joined, and that is what the
    engine is sent. *)
Lemma caller_header_order_not_kept :
  init_headers init_unordered =
    Some [("x-b", "1"); ("x-a", "2"); ("x-b", "3")] /\
  calls (snd (run (fetch ok_engine input (Some init_unordered) None))) =
    [Fetch {| cfg_method := "POST"; cfg_url := "http://h/data.json";
              cfg_headers := [("x-a", "2"); ("x-b", "1, 3")];
              cfg_data := None; cfg_options := None |};
     FetchSend 1; FetchReadBody 2]%Z /\
  [("x-a", "2"); ("x-b", "1, 3")] <>
    [("x-b", "1"); ("x-a", "2"); ("x-b", "3")].
Proof.
  repeat split. discriminate.
Qed.

Lemma response_url_headers_from_engine_witness :
  exists rid r history rest,
    calls (snd (run (fetch ok_engine input (Some (init_firing 7)) None))) =
      history ++ rest /\
    In (FetchSend rid) history /\
    engine_fetch_send ok_engine rid history = inr r /\
    "http://h/data.json" = resp_url r /\
    new_Headers (resp_headers r) =
      inr [("content-type", "application/json"); ("set-cookie", "a=1")].
Proof.
  apply (response_url_headers_from_engine ok_engine input
           (Some (init_firing 7)) None json_response).
  reflexivity.
Defined.

Lemma empty_body_becomes_null_witness :
  exists r body,
    In (FetchReadBody (resp_rid r))
       (calls (snd (run (fetch (empty_body_engine (BodyArray [])) input
                           None None)))) /\
    engine_fetch_read_body (empty_body_engine (BodyArray [])) (resp_rid r)
      (calls (snd (run (fetch (empty_body_engine (BodyArray [])) input
                          None None)))) = inr body /\
    new_Response (body_init body)
      {| ri_status := status r; ri_statusText := statusText r |} =
      inr {| sr_body := None; sr_status := 200%Z; sr_statusText := "OK" |} /\
    (body = BodyArrayBuffer [] \/ body = BodyArray [] ->
     new_Response None
       {| ri_status := status r; ri_statusText := statusText r |} =
       inr {| sr_body := None; sr_status := 200%Z; sr_statusText := "OK" |}).
Proof.
  apply (empty_body_becomes_null (empty_body_engine (BodyArray [])) input
           None None empty_response).
  reflexivity.
Defined.

Example empty_buffer_and_empty_array_alike :
  fst (run (fetch (empty_body_engine (BodyArrayBuffer [])) input None None)) =
  fst (run (fetch (empty_body_engine (BodyArray [])) input None None)).
Proof. reflexivity. Qed.

(** C7, as the claim states it, fails on this call: the signal fires
    while the status call is pending, so it is aborted when the body
    call is about to be made; the body call is made all the same and
    the call returns a response. *)
Lemma body_call_not_guarded :
  aborted_at (Some (init_firing 3)) 2 = false /\
  aborted_at (Some (init_firing 3)) 3 = true /\
  calls (snd (run (fetch ok_engine input (Some (init_firing 3)) None))) =
    [Fetch cfg; FetchSend 1; FetchCancel 1; FetchReadBody 2]%Z /\
  exists res,
    fst (run (fetch ok_engine input (Some (init_firing 3)) None)) =
      Return res.
Proof.
  repeat split. eexists. reflexivity.
Qed.

(** With an engine that honours the listener's cancel call, the same
    signal ends the call with the engine's rejection of the status
    call, which is not the binding's own error. *)
Example abort_during_status_call :
  run (fetch cancelling_engine input (Some (init_firing 3)) None) =
    (Throw (Rejected "Request canceled"),
     {| now := 3;
        calls := [Fetch cfg; FetchSend 1; FetchCancel 1]%Z;
        listeners := [({| fires_at := Some 3 |}, FetchCancel 1%Z)] |}).
Proof. reflexivity. Qed.

Lemma checkpoints_guard_issue_and_status_witness :
  In (FetchReadBody 2%Z)
     (calls (snd (run (fetch ok_engine input (Some (init_firing 3)) None)))) /\
  In (FetchCancel 1%Z)
     (calls (snd (run (fetch ok_engine input (Some (init_firing 3)) None)))).
Proof.
  destruct (checkpoints_guard_issue_and_status ok_engine input
              (Some (init_firing 3)) None) as (_ & _ & _ & Hbody).
  destruct (Hbody req [x01; x02; xff] 1%Z
              {| status := 200%Z; statusText := "OK";
                 resp_headers := [("content-type", "application/json");
                                  ("set-cookie", "a=1")];
                 resp_url := "http://h/data.json"; resp_rid := 2%Z |}
              eq_refl eq_refl eq_refl eq_refl) as [Hread Hcancel].
  split; [exact Hread | exact (Hcancel eq_refl)].
Defined.

Lemma cancellation_error_is_local_witness :
  fst (run (fetch ok_engine input (Some (init_firing 2)) None)) =
    Throw (Raised (new_Error ERROR_REQUEST_CANCELLED)) /\
  new_Error ERROR_REQUEST_CANCELLED = new_Error ERROR_REQUEST_CANCELLED /\
  message (new_Error ERROR_REQUEST_CANCELLED) = "Request canceled" /\
  aborted_at (Some (init_firing 2)) 2 = true /\
  (calls (snd (run (fetch ok_engine input (Some (init_firing 2)) None))) =
     [] \/
   exists c rid,
     engine_fetch ok_engine c [Fetch c] = inr rid /\
     calls (snd (run (fetch ok_engine input (Some (init_firing 2)) None))) =
       [Fetch c; FetchCancel rid]).
Proof.
  split; [reflexivity|].
  exact (proj1 (cancellation_error_is_local ok_engine input
                  (Some (init_firing 2)) None
                  (Raised (new_Error ERROR_REQUEST_CANCELLED)) eq_refl)
           (new_Error ERROR_REQUEST_CANCELLED) eq_refl).
Defined.

(** ** The further properties on concrete calls *)

Lemma setClientOptions_single_call_witness :
  fst (run (setClientOptions status_failing_engine sample_options)) =
    Throw (Rejected "invalid proxy url") /\
  calls (snd (run (setClientOptions status_failing_engine sample_options))) =
    [SetClientOptions sample_options].
Proof.
  destruct (setClientOptions_single_call status_failing_engine sample_options)
    as (Hcalls & _ & Hrejected & _).
  split; [apply Hrejected; reflexivity | exact Hcalls].
Defined.

Lemma host_failure_before_issue_witness :
  exists e,
    fst (run (fetch ok_engine (InputString "") None None)) =
      Throw (HostThrown e) /\
    calls (snd (run (fetch ok_engine (InputString "") None None))) = [] /\
    (new_Request (InputString "") None = inl e \/
     exists r, new_Request (InputString "") None = inr r /\
               arrayBuffer r = inl e).
Proof.
  apply (host_failure_before_issue ok_engine (InputString "") None None);
    reflexivity.
Defined.

Lemma status_rejection_propagates_witness :
  fst (run (fetch status_failing_engine input (Some init_plain) None)) =
    Throw (Rejected "connection refused") /\
  calls (snd (run (fetch status_failing_engine input (Some init_plain) None))) =
    [Fetch plain_cfg; FetchSend 1%Z] ++ fired (Some init_plain) 1%Z 3 /\
  forall id,
    ~ In (FetchReadBody id)
        (calls (snd (run (fetch status_failing_engine input
                            (Some init_plain) None)))).
Proof.
  apply (status_rejection_propagates status_failing_engine input
           (Some init_plain) None plain_req [x01; x02; xff] 1%Z);
    reflexivity.
Defined.

Lemma body_rejection_propagates_witness :
  fst (run (fetch body_failing_engine input (Some (init_firing 4)) None)) =
    Throw (Rejected "connection reset") /\
  calls (snd (run (fetch body_failing_engine input
                     (Some (init_firing 4)) None))) =
    [Fetch cfg; FetchSend 1; FetchReadBody 2; FetchCancel 1]%Z.
Proof.
  apply (body_rejection_propagates body_failing_engine input
           (Some (init_firing 4)) None req [x01; x02; xff] 1%Z
           {| status := 200%Z; statusText := "OK"; resp_headers := [];
              resp_url := "http://h/data.json"; resp_rid := 2%Z |});
    reflexivity.
Defined.

Lemma fetch_returns_witness :
  fst (run (fetch ok_engine input (Some (init_firing 3)) None)) =
    Return json_response /\
  calls (snd (run (fetch ok_engine input (Some (init_firing 3)) None))) =
    [Fetch cfg; FetchSend 1; FetchCancel 1; FetchReadBody 2]%Z.
Proof.
  apply (fetch_returns ok_engine input (Some (init_firing 3)) None
           req [x01; x02; xff] 1%Z status_reply (BodyArray json_a1));
    reflexivity.
Defined.

Lemma assembly_failure_propagates_witness :
  fst (run (fetch invalid_status_engine input (Some init_plain) None)) =
    Throw (HostThrown {| name := "RangeError"; message := "status" |}) /\
  In (FetchReadBody 2%Z)
     (calls (snd (run (fetch invalid_status_engine input
                         (Some init_plain) None)))).
Proof.
  apply (assembly_failure_propagates invalid_status_engine input
           (Some init_plain) None plain_req [x01; x02; xff] 1%Z
           {| status := 99%Z; statusText := ""; resp_headers := [];
              resp_url := "http://h/data.json"; resp_rid := 2%Z |}
           (BodyArray json_a1));
    try reflexivity.
  left; reflexivity.
Defined.

Lemma issue_call_first_and_once_witness :
  exists c rest,
    calls (snd (run (fetch ok_engine input (Some (init_firing 4)) None))) =
      Fetch c :: rest /\
    forall c', ~ In (Fetch c') rest.
Proof.
  apply (issue_call_first_and_once ok_engine input (Some (init_firing 4))
           None (FetchCancel 1%Z)).
  vm_compute. tauto.
Defined.

Lemma aborted_call_has_cancelled_witness :
  In (FetchCancel 1%Z)
     (calls (snd (run (fetch ok_engine input (Some (init_firing 4)) None)))).
Proof.
  apply (aborted_call_has_cancelled ok_engine input (Some (init_firing 4))
           None req [x01; x02; xff] 1%Z);
    reflexivity.
Defined.

Lemma no_signal_no_cancellation_witness :
  fst (run (fetch ok_engine input (Some init_plain) None)) <>
    Throw (Raised (new_Error ERROR_REQUEST_CANCELLED)) /\
  (forall id,
     ~ In (FetchCancel id)
         (calls (snd (run (fetch ok_engine input (Some init_plain) None))))) /\
  listeners (snd (run (fetch ok_engine input (Some init_plain) None))) = [].
Proof.
  apply (no_signal_no_cancellation ok_engine input (Some init_plain) None).
  reflexivity.
Defined.

Lemma cancel_answer_ignored_witness :
  run (fetch ok_engine input (Some (init_firing 2)) None) =
  run (fetch cancel_rejecting_engine input (Some (init_firing 2)) None).
Proof.
  apply (cancel_answer_ignored input (Some (init_firing 2)) None
           ok_engine cancel_rejecting_engine);
    reflexivity.
Defined.

Lemma late_abort_still_cancels_witness :
  exists rid,
    In (FetchSend rid)
       (calls (snd (run (fetch ok_engine input (Some (init_firing 9)) None)))) /\
    (forall n, n < 9 - 4 ->
       calls (elapse n (snd (run (fetch ok_engine input
                                    (Some (init_firing 9)) None)))) =
       calls (snd (run (fetch ok_engine input (Some (init_firing 9)) None)))) /\
    calls (elapse (9 - 4)
             (snd (run (fetch ok_engine input (Some (init_firing 9)) None)))) =
      calls (snd (run (fetch ok_engine input (Some (init_firing 9)) None))) ++
      [FetchCancel rid].
Proof.
  apply (late_abort_still_cancels input (Some (init_firing 9)) None
           ok_engine json_response {| fires_at := Some 9 |} 9);
    solve [reflexivity | lia].
Defined.

Lemma wrapped_headers_unwrapped_witness :
  mappedHeaders_of
    {| method := "GET"; url := "http://h/";
       headers := [("http_unsafe_header_origin", "null");
                   ("http_unsafe_header_http_unsafe_header_x", "1");
                   ("http_unsafe_header_", "v")];
       arrayBuffer := inr [] |} =
  [("origin", "null"); ("http_unsafe_header_x", "1"); ("", "v")].
Proof.
  apply wrapped_headers_unwrapped. reflexivity.
Defined.

Lemma plain_headers_unchanged_witness :
  mappedHeaders_of plain_req = headers plain_req.
Proof.
  apply plain_headers_unchanged. repeat constructor.
Defined.

Lemma issue_carries_request_and_options_witness :
  cfg_options
    {| cfg_method := "POST"; cfg_url := "http://h/data.json";
       cfg_headers := [("accept", "*/*")];
       cfg_data := Some [1; 2; 255]%Z;
       cfg_options := Some sample_options |} = Some sample_options /\
  exists r,
    new_Request input (Some init_plain) = inr r /\
    "POST" = method r /\ "http://h/data.json" = url r.
Proof.
  apply (issue_carries_request_and_options ok_engine input (Some init_plain)
           (Some sample_options)
           {| cfg_method := "POST"; cfg_url := "http://h/data.json";
              cfg_headers := [("accept", "*/*")];
              cfg_data := Some [1; 2; 255]%Z;
              cfg_options := Some sample_options |}).
  left; reflexivity.
Defined.
